(** * Account management app: the account store and its validation helpers

    A shallow embedding of [app.js]: the validation helpers
    ([validateEmail], [calculatePasswordStrength]), the in-memory collection
    [userDatabase] with its persisted slot, and the three event handlers that
    read and write it (login, registration, profile save).

    JavaScript strings are sequences of UTF-16 code units; they are modelled
    as lists of [N].  Regular expressions are modelled by a small
    backtracking matcher over the constructs that the source's literals use. *)

From Stdlib Require Import NArith Ascii String List Bool Lia.
From stdpp Require Import base list strings pretty numbers option.

Local Open Scope N_scope.

(** ** JavaScript strings *)

Module JS.

(** A string is its sequence of UTF-16 code units. *)
Definition jsstring := list N.

(** A source literal, character by character. *)
Definition str (s : string) : jsstring :=
  map N_of_ascii (list_ascii_of_string s).

(** [s.length] *)
Definition length (s : jsstring) : nat := List.length s.

(** [!s] on a string: only the empty string is falsy. *)
Definition falsy (s : jsstring) : bool :=
  match s with
  | [] => true
  | _ :: _ => false
  end.

(** The code units of the WhiteSpace and LineTerminator productions of
    ECMAScript: TAB, LF, VT, FF, CR, SP, NBSP, the space separators
    U+1680, U+2000..U+200A, U+202F, U+205F, U+3000, the separators
    U+2028 and U+2029, and U+FEFF.  Both [String.prototype.trim] and the
    regular-expression escape [\s] use this set. *)
Definition isWhiteSpace (c : N) : bool :=
  (9 <=? c) && (c <=? 13)
  || (c =? 32) || (c =? 160) || (c =? 5760)
  || (8192 <=? c) && (c <=? 8202)
  || (c =? 8232) || (c =? 8233) || (c =? 8239) || (c =? 8287)
  || (c =? 12288) || (c =? 65279).

Fixpoint dropWhile (p : N -> bool) (s : jsstring) : jsstring :=
  match s with
  | [] => []
  | c :: s' => if p c then dropWhile p s' else s
  end.

Definition trimStart (s : jsstring) : jsstring := dropWhile isWhiteSpace s.

Definition trimEnd (s : jsstring) : jsstring :=
  rev (dropWhile isWhiteSpace (rev s)).

(** [s.trim()] *)
Definition trim (s : jsstring) : jsstring := trimEnd (trimStart s).

(** [n.toString()] for a non-negative integer: its decimal digits. *)
Definition toString (n : N) : jsstring := str (pretty n).

(** [arr.find(p)] and [arr.findIndex(p)]; [None] stands for [undefined]
    and for [-1]. *)
Definition find {A} (P : A -> Prop) `{!forall x, Decision (P x)}
    (arr : list A) : option A :=
  snd <$> list_find P arr.

Definition findIndex {A} (P : A -> Prop) `{!forall x, Decision (P x)}
    (arr : list A) : option nat :=
  fst <$> list_find P arr.

End JS.

Abbreviation jsstring := JS.jsstring.

(** ** Regular expressions *)

Module RegExp.

(** Members of a character class [[...]]. *)
Inductive class_item :=
| CChar (c : N)            (* a single character *)
| CRange (lo hi : N)       (* lo-hi *)
| CSpace.                  (* \s *)

(** Something that matches exactly one code unit. *)
Inductive atom :=
| Lit (c : N)                                       (* literal, or \c *)
| Class (negated : bool) (items : list class_item). (* [...] or [^...] *)

Inductive term :=
| Bol                      (* ^, no multiline flag *)
| Eol                      (* $, no multiline flag *)
| One (a : atom)
| Plus (a : atom).         (* a+ *)

(** A pattern without alternation is a sequence of terms. *)
Definition regex := list term.

Definition item_matches (i : class_item) (c : N) : bool :=
  match i with
  | CChar c' => c =? c'
  | CRange lo hi => (lo <=? c) && (c <=? hi)
  | CSpace => JS.isWhiteSpace c
  end.

Definition atom_matches (a : atom) (c : N) : bool :=
  match a with
  | Lit c' => c =? c'
  | Class negated items =>
      xorb negated (existsb (fun i => item_matches i c) items)
  end.

(** [a+] followed by the continuation [k]: at least one code unit matching
    [a], then greedily more, backing off until [k] accepts the rest. *)
Fixpoint plus_loop (p : N -> bool) (k : jsstring -> bool) (s : jsstring)
    : bool :=
  match s with
  | [] => false
  | c :: s' => p c && (plus_loop p k s' || k s')
  end.

(** Does [re] match a prefix of [s]?  [at_start] tells whether [s] is the
    whole input (position 0). *)
Fixpoint match_here (re : regex) (at_start : bool) (s : jsstring) : bool :=
  match re with
  | [] => true
  | Bol :: re' => at_start && match_here re' at_start s
  | Eol :: re' => JS.falsy s && match_here re' at_start s
  | One a :: re' =>
      match s with
      | [] => false
      | c :: s' => atom_matches a c && match_here re' false s'
      end
  | Plus a :: re' => plus_loop (atom_matches a) (match_here re' false) s
  end.

(** The search of [re.test(s)]: try every start position from 0 on. *)
Fixpoint search (re : regex) (at_start : bool) (s : jsstring) : bool :=
  match_here re at_start s
  || match s with
     | [] => false
     | _ :: s' => search re false s'
     end.

(** [re.test(s)] for a pattern without the [g] and [y] flags. *)
Definition test (re : regex) (s : jsstring) : bool := search re true s.

End RegExp.

Import RegExp.

(** ** Utility functions of [app.js] *)

Definition char (a : ascii) : N := N_of_ascii a.

(** [[^\s@]] *)
Definition not_space_at : atom := Class true [CSpace; CChar (char "@")].

(** [/^[^\s@]+@[^\s@]+\.[^\s@]+$/] *)
Definition emailRegex : regex :=
  [Bol; Plus not_space_at; One (Lit (char "@")); Plus not_space_at;
   One (Lit (char ".")); Plus not_space_at; Eol].

Definition validateEmail (email : jsstring) : bool :=
  test emailRegex email.

Inductive Strength := weak | medium | strong.

(** [/[a-z]/], [/[A-Z]/], [/[0-9]/], [/[^a-zA-Z0-9]/] *)
Definition lower_class : atom := Class false [CRange (char "a") (char "z")].
Definition upper_class : atom := Class false [CRange (char "A") (char "Z")].
Definition digit_class : atom := Class false [CRange (char "0") (char "9")].
Definition symbol_class : atom :=
  Class true [CRange (char "a") (char "z"); CRange (char "A") (char "Z");
              CRange (char "0") (char "9")].

Definition calculatePasswordStrength (password : jsstring) : Strength :=
  if (JS.length password <? 6)%nat then weak
  else
    let strength := 0%nat in
    let strength :=
      if (8 <=? JS.length password)%nat then S strength else strength in
    let strength :=
      if test [One lower_class] password then S strength else strength in
    let strength :=
      if test [One upper_class] password then S strength else strength in
    let strength :=
      if test [One digit_class] password then S strength else strength in
    let strength :=
      if test [One symbol_class] password then S strength else strength in
    if (strength <=? 2)%nat then weak
    else if (strength <=? 4)%nat then medium
    else strong.

(** ** JSON text of the persisted slot *)

Module JSON.

(** In JavaScript an object is an ordered list of properties.  The objects
    that reach the slot have string-valued properties only. *)
Definition object := list (jsstring * jsstring).

Definition QUOTE : N := 34.
Definition BACKSLASH : N := 92.

(** Leading (U+D800..U+DBFF) and trailing (U+DC00..U+DFFF) surrogates. *)
Definition is_lead (c : N) : bool := (55296 <=? c) && (c <=? 56319).
Definition is_trail (c : N) : bool := (56320 <=? c) && (c <=? 57343).

Definition hex_digit (d : N) : N := if d <? 10 then 48 + d else 87 + d.

(** [\uXXXX], four lowercase hexadecimal digits. *)
Definition UnicodeEscape (c : N) : jsstring :=
  [BACKSLASH; char "u"; hex_digit (c / 4096 mod 16);
   hex_digit (c / 256 mod 16); hex_digit (c / 16 mod 16);
   hex_digit (c mod 16)].

(** One code point that is not a surrogate pair. *)
Definition quote_unit (c : N) : jsstring :=
  if c =? 8 then [BACKSLASH; char "b"]
  else if c =? 9 then [BACKSLASH; char "t"]
  else if c =? 10 then [BACKSLASH; char "n"]
  else if c =? 12 then [BACKSLASH; char "f"]
  else if c =? 13 then [BACKSLASH; char "r"]
  else if c =? QUOTE then [BACKSLASH; QUOTE]
  else if c =? BACKSLASH then [BACKSLASH; BACKSLASH]
  else if (c <? 32) || is_lead c || is_trail c then UnicodeEscape c
  else [c].

(** The string is read by code points: a leading surrogate followed by a
    trailing one is a pair and is copied; a lone surrogate is escaped. *)
Fixpoint quote_chars (s : jsstring) : jsstring :=
  match s with
  | [] => []
  | c :: s' =>
      match s' with
      | d :: s'' =>
          if is_lead c && is_trail d then c :: d :: quote_chars s''
          else quote_unit c ++ quote_chars s'
      | [] => quote_unit c
      end
  end.

Definition QuoteJSONString (s : jsstring) : jsstring :=
  QUOTE :: quote_chars s ++ [QUOTE].

Fixpoint join_comma (parts : list jsstring) : jsstring :=
  match parts with
  | [] => []
  | p :: ps =>
      match ps with
      | [] => p
      | _ :: _ => p ++ char "," :: join_comma ps
      end
  end.

Definition stringify_member (m : jsstring * jsstring) : jsstring :=
  QuoteJSONString m.1 ++ char ":" :: QuoteJSONString m.2.

Definition stringify_object (o : object) : jsstring :=
  char "{" :: join_comma (map stringify_member o) ++ [char "}"].

(** [JSON.stringify(arr)] for an array of such objects, no indentation. *)
Definition stringify (arr : list object) : jsstring :=
  char "[" :: join_comma (map stringify_object arr) ++ [char "]"].

(** *** Parsing *)

(** JSON white space: TAB, LF, CR, SP. *)
Definition is_ws (c : N) : bool :=
  (c =? 9) || (c =? 10) || (c =? 13) || (c =? 32).

Definition skip_ws (s : jsstring) : jsstring := JS.dropWhile is_ws s.

(** Skip white space, then require the code unit [c]. *)
Definition expect (c : N) (s : jsstring) : option jsstring :=
  match skip_ws s with
  | c' :: s' => if c' =? c then Some s' else None
  | [] => None
  end.

Definition hex_value (h : N) : option N :=
  if (48 <=? h) && (h <=? 57) then Some (h - 48)
  else if (97 <=? h) && (h <=? 102) then Some (h - 87)
  else if (65 <=? h) && (h <=? 70) then Some (h - 55)
  else None.

Definition unescape (e : N) : option N :=
  if e =? QUOTE then Some QUOTE
  else if e =? BACKSLASH then Some BACKSLASH
  else if e =? char "/" then Some (char "/")
  else if e =? char "b" then Some 8
  else if e =? char "f" then Some 12
  else if e =? char "n" then Some 10
  else if e =? char "r" then Some 13
  else if e =? char "t" then Some 9
  else None.

(** The characters of a string literal after its opening quote, up to and
    including the closing quote; returns the value and the rest. *)
Fixpoint parse_chars (s : jsstring) : option (jsstring * jsstring) :=
  match s with
  | [] => None
  | c :: s' =>
      if c =? QUOTE then Some ([], s')
      else if c =? BACKSLASH then
        match s' with
        | [] => None
        | e :: s'' =>
            if e =? char "u" then
              match s'' with
              | h1 :: h2 :: h3 :: h4 :: s3 =>
                  d1 ← hex_value h1; d2 ← hex_value h2;
                  d3 ← hex_value h3; d4 ← hex_value h4;
                  r ← parse_chars s3;
                  Some ((4096 * d1 + 256 * d2 + 16 * d3 + d4) :: r.1, r.2)
              | _ => None
              end
            else
              v ← unescape e; r ← parse_chars s'';
              Some (v :: r.1, r.2)
        end
      else if c <? 32 then None
      else r ← parse_chars s'; Some (c :: r.1, r.2)
  end.

Definition parse_string (s : jsstring) : option (jsstring * jsstring) :=
  s' ← expect QUOTE s; parse_chars s'.

Definition parse_member (s : jsstring)
    : option ((jsstring * jsstring) * jsstring) :=
  k ← parse_string s;
  s1 ← expect (char ":") k.2;
  v ← parse_string s1;
  Some ((k.1, v.1), v.2).

(** One or more members, up to and including the closing brace. *)
Fixpoint parse_members (fuel : nat) (s : jsstring)
    : option (object * jsstring) :=
  match fuel with
  | O => None
  | S fuel' =>
      m ← parse_member s;
      match skip_ws m.2 with
      | c :: s1 =>
          if c =? char "," then
            r ← parse_members fuel' s1; Some (m.1 :: r.1, r.2)
          else if c =? char "}" then Some ([m.1], s1)
          else None
      | [] => None
      end
  end.

Definition parse_object (fuel : nat) (s : jsstring)
    : option (object * jsstring) :=
  s1 ← expect (char "{") s;
  match expect (char "}") s1 with
  | Some s2 => Some ([], s2)
  | None => parse_members fuel s1
  end.

(** One or more elements, up to and including the closing bracket. *)
Fixpoint parse_elements (fuel : nat) (s : jsstring)
    : option (list object * jsstring) :=
  match fuel with
  | O => None
  | S fuel' =>
      o ← parse_object fuel' s;
      match skip_ws o.2 with
      | c :: s1 =>
          if c =? char "," then
            r ← parse_elements fuel' s1; Some (o.1 :: r.1, r.2)
          else if c =? char "]" then Some ([o.1], s1)
          else None
      | [] => None
      end
  end.

Definition parse_array (fuel : nat) (s : jsstring)
    : option (list object * jsstring) :=
  s1 ← expect (char "[") s;
  match expect (char "]") s1 with
  | Some s2 => Some ([], s2)
  | None => parse_elements fuel s1
  end.

(** The fuel that reading an array back takes: one unit per element and
    one per member. *)
Definition weight (arr : list object) : nat :=
  sum_list (map (fun o : object => S (List.length o)) arr).

(** [JSON.parse(text)] on the texts that denote an array of objects with
    string-valued properties.  [None] stands for every other outcome: a
    SyntaxError, or a value of another shape.  Each element and each
    member takes one unit of fuel; the text is longer than their number. *)
Definition parse (text : jsstring) : option (list object) :=
  r ← parse_array (S (JS.length text)) text;
  if JS.falsy (skip_ws r.2) then Some r.1 else None.

End JSON.

(** ** User records *)

Module User.

Record t := mk {
  id : jsstring;
  firstName : jsstring;
  lastName : jsstring;
  email : jsstring;
  password : jsstring;
  memberSince : jsstring
}.

#[export] Instance eq_dec : EqDecision t.
Proof. solve_decision. Defined.

(** The own properties of a record object, in creation order. *)
Definition to_object (u : t) : JSON.object :=
  [(JS.str "id", id u); (JS.str "firstName", firstName u);
   (JS.str "lastName", lastName u); (JS.str "email", email u);
   (JS.str "password", password u); (JS.str "memberSince", memberSince u)].

Definition keys : list jsstring :=
  [JS.str "id"; JS.str "firstName"; JS.str "lastName"; JS.str "email";
   JS.str "password"; JS.str "memberSince"].

(** The value of property [k]; a later member of a JSON text overrides an
    earlier one with the same key. *)
Fixpoint get (k : jsstring) (o : JSON.object) : option jsstring :=
  match o with
  | [] => None
  | m :: o' =>
      match get k o' with
      | Some v => Some v
      | None => if decide (m.1 = k) then Some m.2 else None
      end
  end.

(** The record that an object denotes: it has the six properties and no
    other. *)
Definition of_object (o : JSON.object) : option t :=
  if forallb (fun m => bool_decide (m.1 ∈ keys)) o then
    i ← get (JS.str "id") o; f ← get (JS.str "firstName") o;
    l ← get (JS.str "lastName") o; e ← get (JS.str "email") o;
    p ← get (JS.str "password") o; m ← get (JS.str "memberSince") o;
    Some (mk i f l e p m)
  else None.

End User.

(** ** Data storage *)

(** The module-level variable [userDatabase] and the [localStorage] slot
    with key ['users'] ([None]: the key is absent). *)
Record Store := {
  userDatabase : list User.t;
  users_slot : option jsstring
}.

Definition updateLocalStorage (st : Store) : Store :=
  {| userDatabase := userDatabase st;
     users_slot := Some (JSON.stringify (map User.to_object (userDatabase st))) |}.

(** [JSON.parse(localStorage.getItem('users')) || []]: an absent key reads
    as [null], which parses to [null] and is replaced by the empty array;
    an array is truthy and is kept. *)
Definition loadUserDatabase (slot : option jsstring) : option (list User.t) :=
  match slot with
  | None => Some []
  | Some text => objs ← JSON.parse text; mapM User.of_object objs
  end.

(** The [errors] object of a form validation: field name and message. *)
Definition Errors := list (string * string).

(** ** Login *)

Module LoginPage.

Inductive Outcome :=
| FieldErrors (fieldErrors : Errors)   (* setFieldErrors(...); return *)
| LoggedIn (user : User.t)             (* onLogin(user) *)
| Error (error : string).              (* setError(...) *)

(** The lookup that ends the handler: the first record whose email and
    password both equal the inputs is handed to [onLogin]; without one
    the form shows the error. *)
Definition authenticate (email password : jsstring) (st : Store)
    : Store * Outcome :=
  match JS.find (fun u => User.email u = email /\ User.password u = password)
                (userDatabase st) with
  | Some user => (st, LoggedIn user)
  | None => (st, Error "Invalid email or password")
  end.

Definition handleSubmit (email password : jsstring) (st : Store)
    : Store * Outcome :=
  if negb (validateEmail email) then
    (st, FieldErrors [("email", "Please enter a valid email address")]%string)
  else if JS.falsy password then
    (st, FieldErrors [("password", "Password is required")]%string)
  else authenticate email password st.

End LoginPage.

(** ** Registration *)

Module RegisterPage.

Record FormData := {
  firstName : jsstring;
  lastName : jsstring;
  email : jsstring;
  password : jsstring;
  confirmPassword : jsstring
}.

Definition formErrors (formData : FormData) : Errors :=
  let errors : Errors := [] in
  let errors :=
    if JS.falsy (JS.trim (firstName formData))
    then errors ++ [("firstName", "First name is required")]%string
    else errors in
  let errors :=
    if JS.falsy (JS.trim (lastName formData))
    then errors ++ [("lastName", "Last name is required")]%string
    else errors in
  let errors :=
    if JS.falsy (JS.trim (email formData))
    then errors ++ [("email", "Email is required")]%string
    else if negb (validateEmail (email formData))
    then errors ++ [("email", "Please enter a valid email address")]%string
    else errors in
  let errors :=
    if JS.falsy (password formData)
    then errors ++ [("password", "Password is required")]%string
    else if (JS.length (password formData) <? 6)%nat
    then errors ++ [("password", "Password must be at least 6 characters")]%string
    else errors in
  let errors :=
    if JS.falsy (confirmPassword formData)
    then errors ++ [("confirmPassword", "Please confirm your password")]%string
    else if bool_decide (password formData ≠ confirmPassword formData)
    then errors ++ [("confirmPassword", "Passwords do not match")]%string
    else errors in
  errors.

(** [Object.keys(errors).length === 0] *)
Definition validateForm (formData : FormData) : bool :=
  match formErrors formData with
  | [] => true
  | _ :: _ => false
  end.

Inductive Outcome :=
| FieldErrors (fieldErrors : Errors)   (* validation failed *)
| Error (error : string)               (* setError(...) *)
| Success.                             (* setSuccess(true) *)

(** The object literal [newUser].  [Date_now] is the value read by
    [Date.now()], and [isoString] the string that
    [new Date().toISOString()] returns. *)
Definition newUser (formData : FormData) (Date_now : N)
    (isoString : jsstring) : User.t :=
  {| User.id := JS.toString Date_now;
     User.firstName := JS.trim (firstName formData);
     User.lastName := JS.trim (lastName formData);
     User.email := JS.trim (email formData);
     User.password := password formData;
     User.memberSince := isoString |}.

Definition handleSubmit (formData : FormData) (Date_now : N)
    (isoString : jsstring) (st : Store) : Store * Outcome :=
  if negb (validateForm formData) then (st, FieldErrors (formErrors formData))
  else
    match JS.find (fun u => User.email u = email formData)
                  (userDatabase st) with
    | Some existingUser =>
        (st, Error "An account with this email already exists")
    | None =>
        (updateLocalStorage
           {| userDatabase :=
                userDatabase st ++ [newUser formData Date_now isoString];
              users_slot := users_slot st |},
         Success)
    end.

End RegisterPage.

(** ** Profile *)

Module ProfilePage.

Record EditData := {
  firstName : jsstring;
  lastName : jsstring;
  email : jsstring
}.

Definition formErrors (editData : EditData) : Errors :=
  let errors : Errors := [] in
  let errors :=
    if JS.falsy (JS.trim (firstName editData))
    then errors ++ [("firstName", "First name is required")]%string
    else errors in
  let errors :=
    if JS.falsy (JS.trim (lastName editData))
    then errors ++ [("lastName", "Last name is required")]%string
    else errors in
  let errors :=
    if JS.falsy (JS.trim (email editData))
    then errors ++ [("email", "Email is required")]%string
    else if negb (validateEmail (email editData))
    then errors ++ [("email", "Please enter a valid email address")]%string
    else errors in
  errors.

Definition validateEditForm (editData : EditData) : bool :=
  match formErrors editData with
  | [] => true
  | _ :: _ => false
  end.

Inductive Outcome :=
| FieldErrors (fieldErrors : Errors)
| Saved (updatedUser : User.t).        (* onUpdateProfile(updatedUser) *)

(** The duplicate scan: only when the email was changed, and skipping the
    records that carry the edited record's id. *)
Definition existingUser (user : User.t) (editData : EditData)
    (db : list User.t) : option User.t :=
  if bool_decide (email editData ≠ User.email user) then
    JS.find (fun u => User.email u = email editData
                      ∧ User.id u ≠ User.id user) db
  else None.

(** [{...user, firstName: ..., lastName: ..., email: ...}] *)
Definition updatedUser (user : User.t) (editData : EditData) : User.t :=
  {| User.id := User.id user;
     User.firstName := JS.trim (firstName editData);
     User.lastName := JS.trim (lastName editData);
     User.email := JS.trim (email editData);
     User.password := User.password user;
     User.memberSince := User.memberSince user |}.

(** "Update in database": the record found under the id is replaced and
    the collection is written to the slot; when [findIndex] gives [-1]
    nothing is stored. *)
Definition saved (user : User.t) (editData : EditData) (st : Store) : Store :=
  match JS.findIndex (fun u => User.id u = User.id user)
                     (userDatabase st) with
  | Some userIndex =>
      updateLocalStorage
        {| userDatabase :=
             <[userIndex := updatedUser user editData]> (userDatabase st);
           users_slot := users_slot st |}
  | None => st
  end.

Definition handleSave (user : User.t) (editData : EditData) (st : Store)
    : Store * Outcome :=
  if negb (validateEditForm editData) then
    (st, FieldErrors (formErrors editData))
  else
    match existingUser user editData (userDatabase st) with
    | Some _ =>
        (st, FieldErrors [("email", "This email is already in use")]%string)
    | None => (saved user editData st, Saved (updatedUser user editData))
    end.

End ProfilePage.

(** ** The application *)

Module App.

Inductive Page := login | register | profile.

Record t := {
  store : Store;
  currentPage : Page;
  currentUser : option User.t
}.

(** First launch: nothing under the key, the login page is shown. *)
Definition init : t :=
  {| store := {| userDatabase := []; users_slot := None |};
     currentPage := login;
     currentUser := None |}.

(** What the user and the timers can make happen.  A form can only be
    submitted on the page that renders it.  [Reload] loads the page again:
    the script reads the slot into [userDatabase] and the component state
    starts afresh. *)
Inductive Event :=
| SubmitLogin (email password : jsstring)
| SubmitRegister (formData : RegisterPage.FormData) (Date_now : N)
                 (isoString : jsstring)
| SaveProfile (editData : ProfilePage.EditData)
| Logout
| Navigate (page : Page)
| Reload.

Definition step (a : t) (e : Event) : t :=
  match e, currentPage a, currentUser a with
  | SubmitLogin email password, login, _ =>
      match LoginPage.handleSubmit email password (store a) with
      | (st, LoginPage.LoggedIn user) =>
          {| store := st; currentPage := profile; currentUser := Some user |}
      | (st, _) =>
          {| store := st; currentPage := currentPage a;
             currentUser := currentUser a |}
      end
  | SubmitRegister formData Date_now isoString, register, _ =>
      {| store :=
           (RegisterPage.handleSubmit formData Date_now isoString (store a)).1;
         currentPage := currentPage a;
         currentUser := currentUser a |}
  | SaveProfile editData, profile, Some user =>
      match ProfilePage.handleSave user editData (store a) with
      | (st, ProfilePage.Saved updatedUser) =>
          {| store := st; currentPage := currentPage a;
             currentUser := Some updatedUser |}
      | (st, _) =>
          {| store := st; currentPage := currentPage a;
             currentUser := currentUser a |}
      end
  | Logout, profile, Some _ =>
      {| store := store a; currentPage := login; currentUser := None |}
  | Navigate page, _, _ =>
      {| store := store a; currentPage := page;
         currentUser := currentUser a |}
  | Reload, _, _ =>
      match loadUserDatabase (users_slot (store a)) with
      | Some loaded =>
          {| store := {| userDatabase := loaded;
                         users_slot := users_slot (store a) |};
             currentPage := login;
             currentUser := None |}
      | None => a   (* the script stops at line 7; no run from [init] does *)
      end
  | _, _, _ => a
  end.

Definition run (a : t) (events : list Event) : t := fold_left step events a.

(** The clock values read by the registrations submitted in a trace. *)
Fixpoint clock_readings (events : list Event) : list N :=
  match events with
  | [] => []
  | SubmitRegister _ Date_now _ :: events' =>
      Date_now :: clock_readings events'
  | _ :: events' => clock_readings events'
  end.

End App.

(** ** The password criteria in the words of the specification *)

Definition is_lowercase (c : N) : Prop := char "a" <= c <= char "z".
Definition is_uppercase (c : N) : Prop := char "A" <= c <= char "Z".
Definition is_digit (c : N) : Prop := char "0" <= c <= char "9".
Definition is_alphanumeric (c : N) : Prop :=
  is_lowercase c \/ is_uppercase c \/ is_digit c.

#[local] Instance is_lowercase_dec c : Decision (is_lowercase c).
Proof. unfold is_lowercase. apply _. Defined.
#[local] Instance is_uppercase_dec c : Decision (is_uppercase c).
Proof. unfold is_uppercase. apply _. Defined.
#[local] Instance is_digit_dec c : Decision (is_digit c).
Proof. unfold is_digit. apply _. Defined.
#[local] Instance is_alphanumeric_dec c : Decision (is_alphanumeric c).
Proof. unfold is_alphanumeric. apply _. Defined.

(** Length at least 8, has a lowercase letter, has an uppercase letter, has
    a digit, has a character that is not alphanumeric. *)
Definition criteria (password : jsstring) : list bool :=
  [bool_decide (8 <= JS.length password)%nat;
   bool_decide (Exists is_lowercase password);
   bool_decide (Exists is_uppercase password);
   bool_decide (Exists is_digit password);
   bool_decide (Exists (fun c => ~ is_alphanumeric c) password)].

(** The number of criteria satisfied. *)
Definition score (password : jsstring) : nat :=
  List.length (List.filter (fun b : bool => b) (criteria password)).

(** ** Views of the collection *)

Definition emails (db : list User.t) : list jsstring := map User.email db.
Definition ids (db : list User.t) : list jsstring := map User.id db.

(** The collection of an application state. *)
Definition db (a : App.t) : list User.t := userDatabase (App.store a).

(** The slot holds the collection. *)
Definition synced (st : Store) : Prop :=
  loadUserDatabase (users_slot st) = Some (userDatabase st).

(** A record as the forms let it in: a well-shaped email and a password
    that is not empty. *)
Definition wellformed (u : User.t) : Prop :=
  validateEmail (User.email u) = true /\ User.password u <> [].

(** What every run of the application keeps true: the slot holds the
    collection, the records are as the forms let them in, and the record
    shown on the profile page is a record of the collection. *)
Definition invariant (a : App.t) : Prop :=
  synced (App.store a)
  /\ Forall wellformed (db a)
  /\ forall u, App.currentUser a = Some u -> u ∈ db a.

(** ** Sample data *)

Definition alice : RegisterPage.FormData :=
  {| RegisterPage.firstName := JS.str " Alice ";
     RegisterPage.lastName := JS.str "Archer";
     RegisterPage.email := JS.str "alice@x.org";
     RegisterPage.password := JS.str "secret1";
     RegisterPage.confirmPassword := JS.str "secret1" |}.

Definition bob : RegisterPage.FormData :=
  {| RegisterPage.firstName := JS.str "Bob";
     RegisterPage.lastName := JS.str "Baker";
     RegisterPage.email := JS.str "bob@x.org";
     RegisterPage.password := JS.str "secret2";
     RegisterPage.confirmPassword := JS.str "secret2" |}.

Definition empty_store : Store := {| userDatabase := []; users_slot := None |}.

Definition stamp : jsstring := JS.str "2024-05-01T10:00:00.000Z".

(** Two records that carry the same id and different emails. *)
Definition ann : User.t :=
  User.mk (JS.str "5") (JS.str "Ann") (JS.str "Archer") (JS.str "ann@x.org")
          (JS.str "secretA") stamp.
Definition ben : User.t :=
  User.mk (JS.str "5") (JS.str "Ben") (JS.str "Baker") (JS.str "ben@x.org")
          (JS.str "secretB") stamp.
Definition twin_store : Store :=
  updateLocalStorage {| userDatabase := [ann; ben]; users_slot := None |}.

(** Two records with different ids and different emails. *)
Definition cat : User.t :=
  User.mk (JS.str "1") (JS.str "Cat") (JS.str "Cole") (JS.str "cat@x.org")
          (JS.str "secretC") stamp.
Definition eve : User.t :=
  User.mk (JS.str "2") (JS.str "Eve") (JS.str "Eden") (JS.str "eve@x.org")
          (JS.str "secretE") stamp.
Definition plain_store : Store :=
  updateLocalStorage {| userDatabase := [cat; eve]; users_slot := None |}.

Definition edit (first last mail : string) : ProfilePage.EditData :=
  {| ProfilePage.firstName := JS.str first;
     ProfilePage.lastName := JS.str last;
     ProfilePage.email := JS.str mail |}.

(** ** Component state of the forms *)

(** The state that [RegisterPage] keeps while the user types. *)
Module RegisterForm.

(** The [name] attributes of the five inputs that call [handleChange]. *)
Inductive Input :=
| firstName | lastName | email | password | confirmPassword.

(** [formData] and [passwordStrength]; [None] is the empty string that
    hides the indicator. *)
Record State := {
  formData : RegisterPage.FormData;
  passwordStrength : option Strength
}.

(** The initial values given to [useState]. *)
Definition initial : State :=
  {| formData :=
       {| RegisterPage.firstName := []; RegisterPage.lastName := [];
          RegisterPage.email := []; RegisterPage.password := [];
          RegisterPage.confirmPassword := [] |};
     passwordStrength := None |}.

(** [{ ...prev, [name]: value }] *)
Definition set (name : Input) (value : jsstring)
    (prev : RegisterPage.FormData) : RegisterPage.FormData :=
  {| RegisterPage.firstName :=
       match name with firstName => value
                     | _ => RegisterPage.firstName prev end;
     RegisterPage.lastName :=
       match name with lastName => value
                     | _ => RegisterPage.lastName prev end;
     RegisterPage.email :=
       match name with email => value | _ => RegisterPage.email prev end;
     RegisterPage.password :=
       match name with password => value
                     | _ => RegisterPage.password prev end;
     RegisterPage.confirmPassword :=
       match name with confirmPassword => value
                     | _ => RegisterPage.confirmPassword prev end |}.

Definition handleChange (name : Input) (value : jsstring) (s : State)
    : State :=
  {| formData := set name value (formData s);
     passwordStrength :=
       match name with
       | password =>
           if JS.falsy value then None
           else Some (calculatePasswordStrength value)
       | _ => passwordStrength s
       end |}.

(** A sequence of keystroke events, oldest first. *)
Definition typed (changes : list (Input * jsstring)) (s : State) : State :=
  fold_left (fun s c => handleChange c.1 c.2 s) changes s.

End RegisterForm.

(** The edit form of [ProfilePage]. *)
Module ProfileForm.

(** The values that [useState] starts [editData] with and that
    [handleCancel] puts back: the fields of the record shown. *)
Definition reset (user : User.t) : ProfilePage.EditData :=
  {| ProfilePage.firstName := User.firstName user;
     ProfilePage.lastName := User.lastName user;
     ProfilePage.email := User.email user |}.

End ProfileForm.

(** ** Vocabulary of the further properties *)

(** A code unit that is neither white space nor [@]. *)
Definition plain (c : N) : Prop :=
  JS.isWhiteSpace c = false /\ c <> char "@".

(** local [@] domain [.] tld, the three parts non-empty and plain. *)
Definition email_shaped (s : jsstring) : Prop :=
  exists l d t : jsstring,
    s = l ++ char "@" :: d ++ char "." :: t
    /\ l <> [] /\ d <> [] /\ t <> []
    /\ Forall plain l /\ Forall plain d /\ Forall plain t.

Definition rank (s : Strength) : nat :=
  match s with weak => 0 | medium => 1 | strong => 2 end.

(** A record as a registration or a save writes it: names trimmed and not
    empty, a well-shaped email, a password of six code units or more. *)
Definition normalised (u : User.t) : Prop :=
  JS.trim (User.firstName u) = User.firstName u /\ User.firstName u <> []
  /\ JS.trim (User.lastName u) = User.lastName u /\ User.lastName u <> []
  /\ validateEmail (User.email u) = true
  /\ (6 <= JS.length (User.password u))%nat.

(** Records with the same email carry the same id. *)
Definition email_determines_id (db : list User.t) : Prop :=
  forall u v, u ∈ db -> v ∈ db -> User.email u = User.email v ->
              User.id u = User.id v.

(** The fields that no form edits: id, password and creation timestamp. *)
Definition frozen (u : User.t) : jsstring * jsstring * jsstring :=
  (User.id u, User.password u, User.memberSince u).

(** A navigation that the pages ask for: to the login or the register
    page. *)
Definition page_link (e : App.Event) : Prop :=
  match e with
  | App.Navigate App.profile => False
  | _ => True
  end.

(** * Properties *)

(** ** Strings and regular expressions *)

Section Strings.

Lemma dropWhile_head (p : N -> bool) (s : jsstring) :
  Forall (fun c => p c = false) s -> JS.dropWhile p s = s.
Proof. intros H. destruct H as [|c s' Hc _]; simpl; [done | by rewrite Hc]. Qed.

Lemma trim_no_space (s : jsstring) :
  Forall (fun c => JS.isWhiteSpace c = false) s -> JS.trim s = s.
Proof.
  intros H. unfold JS.trim, JS.trimStart, JS.trimEnd.
  rewrite (dropWhile_head _ s H).
  rewrite dropWhile_head; [apply rev_involutive |].
  apply Forall_forall. intros c Hc. rewrite <- in_rev in Hc.
  by apply (proj1 (Forall_forall _ _) H).
Qed.

Lemma plus_loop_all (P : N -> Prop) p k (s : jsstring) :
  (forall c, p c = true -> P c) ->
  (forall s', k s' = true -> Forall P s') ->
  plus_loop p k s = true -> Forall P s.
Proof.
  intros Hp Hk. induction s as [|c s' IH]; simpl; [done |].
  intros [Hc Hr]%andb_true_iff. constructor; [by apply Hp |].
  apply orb_true_iff in Hr as [Hr | Hr]; auto.
Qed.

(** A pattern that contains [$] consumes the whole of what it matches, so
    every code unit went through one of its atoms. *)
Lemma match_here_all (P : N -> Prop) (re : regex) :
  (forall a c, In (One a) re \/ In (Plus a) re ->
               atom_matches a c = true -> P c) ->
  In Eol re ->
  forall at_start s, match_here re at_start s = true -> Forall P s.
Proof.
  induction re as [|t re IH]; intros Hat Heol at_start s; [destruct Heol |].
  assert (Hat' : forall a c, In (One a) re \/ In (Plus a) re ->
                             atom_matches a c = true -> P c).
  { intros a c [H | H]; apply Hat; [left | right]; by right. }
  destruct t as [| |a|a]; simpl.
  - intros [_ H]%andb_true_iff. destruct Heol as [? | Heol]; [done |].
    by apply (IH Hat' Heol at_start).
  - intros [H _]%andb_true_iff. destruct s; [constructor | done].
  - destruct Heol as [? | Heol]; [done |].
    destruct s as [|c s']; [done |].
    intros [Hc H]%andb_true_iff. constructor.
    + apply (Hat a c); [left; by left | done].
    + by apply (IH Hat' Heol false).
  - destruct Heol as [? | Heol]; [done |].
    apply plus_loop_all.
    + intros c. apply Hat. right; by left.
    + apply (IH Hat' Heol false).
Qed.

Lemma search_bol_later (re : regex) (s : jsstring) :
  search (Bol :: re) false s = false.
Proof. induction s as [|c s' IH]; simpl; [done | by rewrite IH]. Qed.

Lemma test_bol (re : regex) (s : jsstring) :
  test (Bol :: re) s = match_here re true s.
Proof.
  unfold test. destruct s as [|c s']; simpl.
  - by rewrite orb_false_r.
  - by rewrite search_bol_later, orb_false_r.
Qed.

(** Searching for a single atom is asking whether some code unit matches. *)
Lemma search_one (a : atom) (at_start : bool) (s : jsstring) :
  search [One a] at_start s = existsb (atom_matches a) s.
Proof.
  revert at_start. induction s as [|c s' IH]; intros at_start; simpl; [done |].
  by rewrite IH, andb_true_r.
Qed.

Lemma test_one (a : atom) (s : jsstring) :
  test [One a] s = existsb (atom_matches a) s.
Proof. apply search_one. Qed.

Lemma existsb_Exists (f : N -> bool) (P : N -> Prop)
    `{!forall c, Decision (P c)} (s : jsstring) :
  (forall c, f c = true <-> P c) ->
  existsb f s = bool_decide (Exists P s).
Proof.
  intros Hf. induction s as [|c s' IH]; cbn [existsb].
  - symmetry. apply bool_decide_eq_false. by intros ?%Exists_nil.
  - rewrite IH. destruct (f c) eqn:E; cbn [orb].
    + symmetry. apply bool_decide_eq_true. left. by apply Hf.
    + apply bool_decide_ext. rewrite Exists_cons. split; [tauto |].
      intros [Hc%Hf | ?]; [congruence | done].
Qed.

Lemma not_space_at_spec (c : N) :
  atom_matches not_space_at c = true ->
  JS.isWhiteSpace c = false /\ c <> char "@".
Proof.
  unfold not_space_at. cbn [atom_matches existsb item_matches].
  destruct (JS.isWhiteSpace c); [done |].
  destruct (N.eqb_spec c (char "@")); [done |]. done.
Qed.

Lemma lit_spec (c' c : N) : atom_matches (Lit c') c = true -> c = c'.
Proof. simpl. apply N.eqb_eq. Qed.

Lemma validateEmail_no_space (email : jsstring) :
  validateEmail email = true ->
  Forall (fun c => JS.isWhiteSpace c = false) email.
Proof.
  unfold validateEmail, emailRegex. rewrite test_bol.
  apply match_here_all.
  - intros a c [H | H] Hc; simpl in H;
      repeat (destruct H as [H | H]; [inversion H; subst; clear H |]);
      try done.
    + by apply lit_spec in Hc as ->.
    + by apply lit_spec in Hc as ->.
    + by apply not_space_at_spec in Hc as [? _].
    + by apply not_space_at_spec in Hc as [? _].
    + by apply not_space_at_spec in Hc as [? _].
  - simpl. tauto.
Qed.

Lemma validateEmail_trim (email : jsstring) :
  validateEmail email = true -> JS.trim email = email.
Proof. intros H. by apply trim_no_space, validateEmail_no_space. Qed.

End Strings.

(** ** Password strength *)

Section PasswordStrength.

Lemma range_class_spec (lo hi c : N) :
  atom_matches (Class false [CRange lo hi]) c = true <-> lo <= c <= hi.
Proof.
  cbn [atom_matches existsb item_matches xorb]. rewrite orb_false_r.
  rewrite andb_true_iff, !N.leb_le. done.
Qed.

Lemma symbol_class_spec (c : N) :
  atom_matches symbol_class c = true <-> ~ is_alphanumeric c.
Proof.
  unfold symbol_class, is_alphanumeric, is_lowercase, is_uppercase, is_digit.
  cbn [atom_matches existsb item_matches]. rewrite orb_false_r.
  destruct (_ || _) eqn:E; cbn [xorb].
  - split; [done |]. intros H. exfalso. apply H.
    rewrite !orb_true_iff, !andb_true_iff, !N.leb_le in E. tauto.
  - split; [| done]. intros _ H.
    rewrite !orb_false_iff, !andb_false_iff, !N.leb_gt in E. lia.
Qed.

Lemma strength_by_score (password : jsstring) :
  calculatePasswordStrength password =
    if (JS.length password <? 6)%nat then weak
    else if (score password <=? 2)%nat then weak
    else if (score password <=? 4)%nat then medium
    else strong.
Proof.
  unfold calculatePasswordStrength, score, criteria.
  rewrite !test_one.
  rewrite (existsb_Exists (atom_matches lower_class) is_lowercase)
    by apply range_class_spec.
  rewrite (existsb_Exists (atom_matches upper_class) is_uppercase)
    by apply range_class_spec.
  rewrite (existsb_Exists (atom_matches digit_class) is_digit)
    by apply range_class_spec.
  rewrite (existsb_Exists (atom_matches symbol_class)
             (fun c => ~ is_alphanumeric c)) by apply symbol_class_spec.
  destruct (JS.length password <? 6)%nat; [done |].
  replace (8 <=? JS.length password)%nat
    with (bool_decide (8 <= JS.length password)%nat).
  2:{ destruct (Nat.leb_spec 8 (JS.length password));
        [apply bool_decide_eq_true | apply bool_decide_eq_false]; lia. }
  by repeat (destruct (bool_decide _)).
Qed.

Lemma score_le_5 (password : jsstring) : (score password <= 5)%nat.
Proof.
  unfold score, criteria. by repeat (destruct (bool_decide _)); simpl; lia.
Qed.

End PasswordStrength.

(** C4.  For every password: shorter than 6 code units is weak; otherwise,
    with the score counting the five criteria (length at least 8, a
    lowercase letter, an uppercase letter, a digit, a non-alphanumeric
    character), a score of at most 2 is weak, 3 or 4 medium, and 5 strong. *)
Theorem strength_classifier_thresholds (password : jsstring) :
  ((JS.length password < 6)%nat ->
     calculatePasswordStrength password = weak)
  /\ ((6 <= JS.length password)%nat -> (score password <= 2)%nat ->
        calculatePasswordStrength password = weak)
  /\ ((6 <= JS.length password)%nat -> (3 <= score password <= 4)%nat ->
        calculatePasswordStrength password = medium)
  /\ ((6 <= JS.length password)%nat -> score password = 5%nat ->
        calculatePasswordStrength password = strong).
Proof.
  rewrite strength_by_score.
  destruct (Nat.ltb_spec (JS.length password) 6);
    destruct (Nat.leb_spec (score password) 2);
    destruct (Nat.leb_spec (score password) 4);
    repeat split; intros; (done || lia).
Qed.

Lemma strength_classifier_thresholds_witness :
  calculatePasswordStrength (JS.str "abc") = weak
  /\ calculatePasswordStrength (JS.str "password") = weak
  /\ calculatePasswordStrength (JS.str "Passw0rd") = medium
  /\ calculatePasswordStrength (JS.str "Password1!") = strong.
Proof.
  split; [| split; [| split]].
  - apply (proj1 (strength_classifier_thresholds (JS.str "abc"))).
    vm_compute. lia.
  - apply (proj1 (proj2 (strength_classifier_thresholds (JS.str "password"))));
      vm_compute; lia.
  - apply (proj1 (proj2 (proj2
             (strength_classifier_thresholds (JS.str "Passw0rd")))));
      vm_compute; lia.
  - apply (proj2 (proj2 (proj2
             (strength_classifier_thresholds (JS.str "Password1!")))));
      vm_compute; (lia || reflexivity).
Defined.

(** C5, as the code has it.  On the sample inputs the classifier returns:
    "abc" weak, "abcdefgh" weak (score 2: length and lowercase),
    "Password1!" strong, "password" weak. *)
Theorem strength_samples :
  calculatePasswordStrength (JS.str "abc") = weak
  /\ calculatePasswordStrength (JS.str "abcdefgh") = weak
  /\ score (JS.str "abcdefgh") = 2%nat
  /\ calculatePasswordStrength (JS.str "Password1!") = strong
  /\ calculatePasswordStrength (JS.str "password") = weak.
Proof. repeat split; vm_compute; reflexivity. Qed.

(** C5, as stated, fails on its second sample: "abcdefgh" is not medium. *)
Lemma strength_sample_abcdefgh_not_medium :
  calculatePasswordStrength (JS.str "abcdefgh") <> medium.
Proof. vm_compute. discriminate. Qed.

(** ** JSON: parsing what was written *)

Section JSONRoundTrip.

Import JSON.

Local Ltac cases_on_comparisons :=
  repeat match goal with
    | |- context [?a <=? ?b] => destruct (N.leb_spec a b); try lia
    | |- context [?a <? ?b] => destruct (N.ltb_spec a b); try lia
    | |- context [?a =? ?b] => destruct (N.eqb_spec a b); try lia
    end.

Lemma hex_value_digit (d : N) : d < 16 -> hex_value (hex_digit d) = Some d.
Proof.
  intros Hd. unfold hex_value, hex_digit.
  cases_on_comparisons; cbn [andb]; f_equal; lia.
Qed.

Lemma hex_digits_compose (c : N) :
  c < 65536 ->
  4096 * (c / 4096 mod 16) + 256 * (c / 256 mod 16)
    + 16 * (c / 16 mod 16) + c mod 16 = c.
Proof.
  intros Hc.
  assert (E2 : c / 256 = c / 16 / 16) by (by rewrite N.Div0.div_div).
  assert (E3 : c / 4096 = c / 16 / 16 / 16) by (by rewrite !N.Div0.div_div).
  assert (H3 : c / 4096 < 16) by (apply N.Div0.div_lt_upper_bound; lia).
  rewrite E2, E3 in *.
  pose proof (N.div_mod c 16 ltac:(lia)) as H0.
  pose proof (N.div_mod (c / 16) 16 ltac:(lia)) as H1.
  pose proof (N.div_mod (c / 16 / 16) 16 ltac:(lia)) as H2.
  rewrite (N.mod_small (c / 16 / 16 / 16) 16) by done. lia.
Qed.

Lemma parse_chars_escape (c : N) (t : jsstring) :
  c < 65536 ->
  parse_chars (UnicodeEscape c ++ t)
  = r ← parse_chars t; Some (c :: r.1, r.2).
Proof.
  intros Hc. unfold UnicodeEscape. cbn [app parse_chars].
  change (BACKSLASH =? QUOTE) with false.
  change (BACKSLASH =? BACKSLASH) with true.
  change (char "u" =? char "u") with true. cbn match.
  rewrite !hex_value_digit by (apply N.mod_upper_bound; lia).
  cbn [mbind option_bind]. by rewrite hex_digits_compose.
Qed.

Lemma parse_chars_plain (c : N) (t : jsstring) :
  c <> QUOTE -> c <> BACKSLASH -> 32 <= c ->
  parse_chars (c :: t) = r ← parse_chars t; Some (c :: r.1, r.2).
Proof.
  intros H1 H2 H3. cbn [parse_chars].
  destruct (N.eqb_spec c QUOTE); [done |].
  destruct (N.eqb_spec c BACKSLASH); [done |].
  destruct (N.ltb_spec c 32); [lia | done].
Qed.

Lemma parse_chars_quote_unit (c : N) (t : jsstring) :
  parse_chars (quote_unit c ++ t)
  = r ← parse_chars t; Some (c :: r.1, r.2).
Proof.
  unfold quote_unit.
  destruct (N.eqb_spec c 8) as [-> |]; [done |].
  destruct (N.eqb_spec c 9) as [-> |]; [done |].
  destruct (N.eqb_spec c 10) as [-> |]; [done |].
  destruct (N.eqb_spec c 12) as [-> |]; [done |].
  destruct (N.eqb_spec c 13) as [-> |]; [done |].
  destruct (N.eqb_spec c QUOTE) as [-> |]; [done |].
  destruct (N.eqb_spec c BACKSLASH) as [-> |]; [done |].
  destruct (_ || _) eqn:E.
  - apply parse_chars_escape. unfold is_lead, is_trail in E.
    rewrite !orb_true_iff, !andb_true_iff, !N.leb_le, N.ltb_lt in E. lia.
  - unfold is_lead, is_trail in E.
    rewrite !orb_false_iff, N.ltb_ge in E.
    apply parse_chars_plain; [done | done | tauto].
Qed.

Lemma parse_chars_pair (c d : N) (t : jsstring) :
  is_lead c && is_trail d = true ->
  parse_chars (c :: d :: t)
  = r ← parse_chars t; Some (c :: d :: r.1, r.2).
Proof.
  unfold is_lead, is_trail, QUOTE, BACKSLASH.
  rewrite !andb_true_iff, !N.leb_le. intros [[? ?] [? ?]].
  rewrite !parse_chars_plain by (unfold QUOTE, BACKSLASH; lia).
  by destruct (parse_chars t).
Qed.

(** The characters written for a string, followed by the closing quote,
    read back as the string. *)
Lemma parse_chars_quote_chars (s rest : jsstring) :
  parse_chars (quote_chars s ++ QUOTE :: rest) = Some (s, rest).
Proof.
  enough (H : parse_chars (quote_chars s ++ QUOTE :: rest) = Some (s, rest)
              /\ forall c, parse_chars (quote_chars (c :: s) ++ QUOTE :: rest)
                           = Some (c :: s, rest)) by apply H.
  induction s as [|d s' [IH0 IH1]].
  - split; [done |]. intros c. cbn [quote_chars].
    by rewrite parse_chars_quote_unit.
  - split; [apply IH1 |]. intros c.
    change (quote_chars (c :: d :: s'))
      with (if is_lead c && is_trail d then c :: d :: quote_chars s'
            else quote_unit c ++ quote_chars (d :: s')).
    destruct (is_lead c && is_trail d) eqn:E.
    + change ((c :: d :: quote_chars s') ++ QUOTE :: rest)
        with (c :: d :: (quote_chars s' ++ QUOTE :: rest)).
      by rewrite parse_chars_pair, IH0.
    + by rewrite <- app_assoc, parse_chars_quote_unit, IH1.
Qed.

Lemma parse_string_quote (s rest : jsstring) :
  parse_string (QuoteJSONString s ++ rest) = Some (s, rest).
Proof.
  unfold parse_string, QuoteJSONString.
  change ((QUOTE :: quote_chars s ++ [QUOTE]) ++ rest)
    with (QUOTE :: ((quote_chars s ++ [QUOTE]) ++ rest)).
  rewrite <- app_assoc. cbn [app].
  change (expect QUOTE (QUOTE :: ?t)) with (Some t).
  cbn [mbind option_bind]. apply parse_chars_quote_chars.
Qed.

Lemma parse_member_stringify (m : jsstring * jsstring) (rest : jsstring) :
  parse_member (stringify_member m ++ rest) = Some (m, rest).
Proof.
  unfold parse_member, stringify_member.
  rewrite <- app_assoc, parse_string_quote. cbn [mbind option_bind fst snd app].
  change (expect (char ":") (char ":" :: ?t)) with (Some t).
  cbn [mbind option_bind]. rewrite parse_string_quote.
  cbn [mbind option_bind fst snd]. by destruct m.
Qed.

Lemma join_comma_cons (p : jsstring) (ps : list jsstring) (rest : jsstring) :
  join_comma (p :: ps) ++ rest
  = p ++ match ps with
         | [] => rest
         | _ :: _ => char "," :: (join_comma ps ++ rest)
         end.
Proof. destruct ps; cbn [join_comma]; [done | by rewrite <- app_assoc]. Qed.

Lemma join_comma_length {A} (g : A -> jsstring) (w : A -> nat) (l : list A) :
  (forall x, (w x <= List.length (g x))%nat) ->
  (sum_list (map w l) <= List.length (join_comma (map g l)))%nat.
Proof.
  intros Hw. induction l as [|x l IH]; [done |].
  pose proof (Hw x). destruct l as [|y l]; [simpl; lia |].
  cbn [map sum_list sum_list_with join_comma] in *.
  rewrite length_app. cbn [List.length] in *. unfold id in *. lia.
Qed.

Lemma parse_members_stringify (ms : object) :
  forall (m : jsstring * jsstring) (rest : jsstring) (fuel : nat),
    (List.length ms < fuel)%nat ->
    parse_members fuel
      (join_comma (map stringify_member (m :: ms)) ++ char "}" :: rest)
    = Some (m :: ms, rest).
Proof.
  induction ms as [|m' ms IH]; intros m rest [|fuel] Hfuel;
    try (cbn [List.length] in Hfuel; lia);
    cbn [map]; rewrite join_comma_cons; cbn [parse_members];
    rewrite parse_member_stringify; cbn [mbind option_bind fst snd].
  - done.
  - change (skip_ws (char "," :: ?t)) with (char "," :: t).
    change (char "," =? char ",") with true. cbn match.
    change (stringify_member m' :: map stringify_member ms)
      with (map stringify_member (m' :: ms)).
    rewrite IH by (cbn [List.length] in Hfuel; lia). done.
Qed.

Lemma parse_object_stringify (o : object) (rest : jsstring) (fuel : nat) :
  (List.length o <= fuel)%nat ->
  parse_object fuel (stringify_object o ++ rest) = Some (o, rest).
Proof.
  intros Hfuel. unfold parse_object, stringify_object.
  change ((char "{" :: ?t) ++ rest) with (char "{" :: (t ++ rest)).
  change (expect (char "{") (char "{" :: ?t)) with (Some t).
  cbn [mbind option_bind]. rewrite <- app_assoc. cbn [app].
  destruct o as [|m ms]; [done |].
  rewrite parse_members_stringify by (cbn [List.length] in Hfuel; lia).
  cbn [map]. rewrite join_comma_cons. by destruct m.
Qed.

Lemma parse_elements_stringify (arr : list object) :
  forall (o : object) (rest : jsstring) (fuel : nat),
    (weight (o :: arr) <= fuel)%nat ->
    parse_elements fuel
      (join_comma (map stringify_object (o :: arr)) ++ char "]" :: rest)
    = Some (o :: arr, rest).
Proof.
  unfold weight.
  induction arr as [|o' arr IH]; intros o rest [|fuel] Hfuel;
    cbn [map sum_list sum_list_with] in Hfuel; unfold id in Hfuel; try lia;
    cbn [map]; rewrite join_comma_cons; cbn [parse_elements];
    rewrite parse_object_stringify by lia; cbn [mbind option_bind fst snd].
  - done.
  - change (skip_ws (char "," :: ?t)) with (char "," :: t).
    change (char "," =? char ",") with true. cbn match.
    change (stringify_object o' :: map stringify_object arr)
      with (map stringify_object (o' :: arr)).
    rewrite IH; [done |]. cbn [map sum_list sum_list_with]. unfold id. lia.
Qed.

Lemma stringify_object_length (o : object) :
  (S (List.length o) <= List.length (stringify_object o))%nat.
Proof.
  unfold stringify_object. cbn [List.length]. rewrite length_app.
  pose proof (join_comma_length stringify_member (fun _ => 1%nat) o) as H.
  assert (sum_list (map (fun _ => 1%nat) o) = List.length o) as E.
  { clear. induction o; simpl; lia. }
  rewrite E in H. cbn [List.length].
  enough (List.length o <= List.length (join_comma (map stringify_member o)))%nat
    by lia.
  apply H. intros [k v]. unfold stringify_member, QuoteJSONString.
  cbn [fst snd app List.length]. lia.
Qed.

(** Reading back the text written for an array of objects gives the
    array. *)
Lemma parse_stringify (arr : list object) :
  parse (stringify arr) = Some arr.
Proof.
  unfold parse, parse_array, stringify.
  change (expect (char "[") (char "[" :: ?t)) with (Some t).
  cbn [mbind option_bind].
  destruct arr as [|o arr]; [done |].
  rewrite parse_elements_stringify.
  - cbn [map]. rewrite join_comma_cons.
    unfold stringify_object at 1. done.
  - pose proof (join_comma_length stringify_object
                  (fun o => S (List.length o)) (o :: arr)
                  stringify_object_length) as H.
    unfold weight, JS.length. cbn [List.length]. rewrite length_app. lia.
Qed.

End JSONRoundTrip.

(** ** The persisted slot *)

Section Persistence.

Lemma of_object_to_object (u : User.t) :
  User.of_object (User.to_object u) = Some u.
Proof. by destruct u. Qed.

Lemma mapM_of_object (db : list User.t) :
  mapM User.of_object (map User.to_object db) = Some db.
Proof.
  induction db as [|u db IH]; [done |].
  cbn [map mapM]. rewrite of_object_to_object.
  cbn [mbind option_bind]. by rewrite IH.
Qed.

Lemma load_updateLocalStorage (st : Store) :
  loadUserDatabase (users_slot (updateLocalStorage st))
  = Some (userDatabase st).
Proof.
  unfold loadUserDatabase, updateLocalStorage; cbn [users_slot userDatabase].
  rewrite parse_stringify. cbn [mbind option_bind]. apply mapM_of_object.
Qed.

End Persistence.

(** C8.  Persist-then-reload is a round trip: for every collection of user
    records, writing it to the slot and loading the slot again gives the
    same collection. *)
Theorem persist_reload_roundtrip (st : Store) :
  users_slot (updateLocalStorage st)
  = Some (JSON.stringify (map User.to_object (userDatabase st)))
  /\ userDatabase (updateLocalStorage st) = userDatabase st
  /\ loadUserDatabase (users_slot (updateLocalStorage st))
     = Some (userDatabase st).
Proof. split; [done | split; [done | apply load_updateLocalStorage]]. Qed.

(** ** Array searches *)

Section ArraySearch.

Context {A : Type} (P : A -> Prop) `{!forall x, Decision (P x)}.

Lemma find_Some (l : list A) (x : A) :
  JS.find P l = Some x <->
  exists i, l !! i = Some x /\ P x
            /\ forall j y, l !! j = Some y -> (j < i)%nat -> ~ P y.
Proof.
  unfold JS.find. split.
  - destruct (list_find P l) as [[i y]|] eqn:E; [| done].
    intros [= <-]. exists i. by apply (list_find_Some P l i y).
  - intros (i & Hi). by rewrite (proj2 (list_find_Some P l i x) Hi).
Qed.

Lemma find_None (l : list A) :
  JS.find P l = None <-> Forall (fun x => ~ P x) l.
Proof.
  unfold JS.find. rewrite fmap_None. apply list_find_None.
Qed.

Lemma find_is_Some (l : list A) :
  is_Some (JS.find P l) <-> exists x, x ∈ l /\ P x.
Proof.
  split.
  - intros [x (i & Hi & Hx & _)%find_Some]. exists x.
    split; [by eapply list_elem_of_lookup_2 | done].
  - intros (x & Hin & Hx). destruct (JS.find P l) eqn:E; [done |].
    apply find_None in E. rewrite Forall_forall in E.
    by destruct (E x (proj1 (list_elem_of_In l x) Hin)).
Qed.

Lemma findIndex_Some (l : list A) (i : nat) :
  JS.findIndex P l = Some i <->
  exists x, l !! i = Some x /\ P x
            /\ forall j y, l !! j = Some y -> (j < i)%nat -> ~ P y.
Proof.
  unfold JS.findIndex. split.
  - destruct (list_find P l) as [[i' y]|] eqn:E; [| done].
    intros [= <-]. exists y. by apply (list_find_Some P l i' y).
  - intros (x & Hx). by rewrite (proj2 (list_find_Some P l i x) Hx).
Qed.

Lemma findIndex_None (l : list A) :
  JS.findIndex P l = None <-> Forall (fun x => ~ P x) l.
Proof.
  unfold JS.findIndex. rewrite fmap_None. apply list_find_None.
Qed.

End ArraySearch.

(** ** Login *)

Section Login.

Import LoginPage.

(** With a well-shaped email and a password typed in, the handler is the
    lookup. *)
Lemma handleSubmit_validated (email password : jsstring) (st : Store) :
  validateEmail email = true -> password <> [] ->
  handleSubmit email password st = authenticate email password st.
Proof.
  intros He Hp. unfold handleSubmit. rewrite He. by destruct password.
Qed.

End Login.





(** ** Registration *)

Section Registration.

Import RegisterPage.

Local Ltac case_conditions :=
  repeat match goal with
    | |- context [if ?b then _ else _] =>
        match type of b with bool => destruct b end
    end.

Lemma validateForm_email (formData : FormData) :
  validateForm formData = true ->
  validateEmail (email formData) = true.
Proof.
  unfold validateForm, formErrors.
  destruct (validateEmail (email formData)); [done |]. cbn [negb].
  case_conditions; simpl; done.
Qed.

Lemma validateForm_password (formData : FormData) :
  validateForm formData = true ->
  (6 <= JS.length (password formData))%nat
  /\ confirmPassword formData = password formData.
Proof.
  unfold validateForm, formErrors.
  destruct (Nat.ltb_spec (JS.length (password formData)) 6);
    destruct (bool_decide_reflect
                (password formData <> confirmPassword formData));
    case_conditions; simpl; try done.
  intros _. split; [lia |].
  destruct (decide (confirmPassword formData = password formData)); [done |].
  exfalso. naive_solver.
Qed.

(** The three ways the handler can end. *)
Lemma handleSubmit_cases (formData : FormData) (Date_now : N)
    (isoString : jsstring) (st : Store) :
  (validateForm formData = false
   /\ handleSubmit formData Date_now isoString st
      = (st, FieldErrors (formErrors formData)))
  \/ (validateForm formData = true
      /\ (exists u, u ∈ userDatabase st /\ User.email u = email formData)
      /\ handleSubmit formData Date_now isoString st
         = (st, Error "An account with this email already exists"))
  \/ (validateForm formData = true
      /\ Forall (fun u => User.email u <> email formData) (userDatabase st)
      /\ handleSubmit formData Date_now isoString st
         = (updateLocalStorage
              {| userDatabase :=
                   userDatabase st ++ [newUser formData Date_now isoString];
                 users_slot := users_slot st |},
            Success)).
Proof.
  unfold handleSubmit.
  destruct (validateForm formData); cbn [negb]; [| by left].
  right.
  destruct (JS.find _ (userDatabase st)) as [u|] eqn:E.
  - left. split; [done |]. split; [| done].
    apply (find_is_Some (fun u => User.email u = email formData)).
    by rewrite E.
  - right. split; [done |]. split; [| done].
    by apply (find_None (fun u => User.email u = email formData)).
Qed.

End Registration.

(** C2.  For every store and every valid registration input, the
    registration fails with "An account with this email already exists"
    exactly when some existing record's email equals the new email, and then
    the store is unchanged; otherwise the new record is appended at the end
    of the collection, the existing records staying as they were and in
    their order, and the collection is written to the slot. *)
Theorem create_duplicate_or_append (st : Store)
    (formData : RegisterPage.FormData) (Date_now : N) (isoString : jsstring) :
  RegisterPage.validateForm formData = true ->
  let r := RegisterPage.handleSubmit formData Date_now isoString st in
  let duplicate :=
    RegisterPage.Error "An account with this email already exists" in
  (r.2 = duplicate <->
     exists u, u ∈ userDatabase st
               /\ User.email u = RegisterPage.email formData)
  /\ (r.2 = duplicate -> r.1 = st)
  /\ (r.2 <> duplicate ->
        r.2 = RegisterPage.Success
        /\ userDatabase r.1
           = userDatabase st
             ++ [RegisterPage.newUser formData Date_now isoString]
        /\ User.email (RegisterPage.newUser formData Date_now isoString)
           = RegisterPage.email formData
        /\ users_slot r.1
           = Some (JSON.stringify (map User.to_object (userDatabase r.1)))
        /\ loadUserDatabase (users_slot r.1) = Some (userDatabase r.1)).
Proof.
  intros Hvalid r duplicate. subst r duplicate.
  destruct (handleSubmit_cases formData Date_now isoString st)
    as [[Hv _] | [(_ & Hex & ->) | (_ & Hno & ->)]]; [congruence | |];
    cbn [fst snd].
  - split; [done |]. split; done.
  - split; [| split; [done |]].
    + split; [done |]. intros (u & Hin & Hu).
      rewrite Forall_forall in Hno.
      by destruct (Hno u (proj1 (list_elem_of_In _ _) Hin)).
    + intros _. split; [done |]. split; [done |].
      split; [apply validateEmail_trim, validateForm_email, Hvalid |].
      split; [done |].
      exact (load_updateLocalStorage {| userDatabase := _; users_slot := _ |}).
Qed.

Lemma create_duplicate_or_append_witness :
  RegisterPage.validateForm alice = true
  /\ userDatabase (RegisterPage.handleSubmit alice 5 stamp empty_store).1
     = [RegisterPage.newUser alice 5 stamp].
Proof.
  assert (Hv : RegisterPage.validateForm alice = true)
    by (vm_compute; reflexivity).
  split; [exact Hv |].
  destruct (create_duplicate_or_append empty_store alice 5 stamp Hv)
    as (_ & _ & H).
  apply H. vm_compute. discriminate.
Defined.

(** C10.  Every string that the email-shape check accepts has no white
    space, so trimming it changes nothing; hence the email that a
    registration stores (the trimmed input) is the email that its duplicate
    scan compared with the existing records (the input as typed). *)
Theorem accepted_email_is_trimmed :
  (forall email : jsstring,
     validateEmail email = true ->
     Forall (fun c => JS.isWhiteSpace c = false) email
     /\ JS.trim email = email)
  /\ (forall (formData : RegisterPage.FormData) (Date_now : N)
             (isoString : jsstring) (st st' : Store),
        RegisterPage.handleSubmit formData Date_now isoString st
        = (st', RegisterPage.Success) ->
        JS.find (fun u => User.email u = RegisterPage.email formData)
                (userDatabase st) = None
        /\ exists u, userDatabase st' = userDatabase st ++ [u]
                     /\ User.email u = JS.trim (RegisterPage.email formData)
                     /\ User.email u = RegisterPage.email formData).
Proof.
  split.
  - intros email H. split; [by apply validateEmail_no_space |].
    by apply validateEmail_trim.
  - intros formData Date_now isoString st st' H.
    destruct (handleSubmit_cases formData Date_now isoString st)
      as [[_ E] | [(_ & _ & E) | (Hv & Hno & E)]];
      rewrite E in H; [done | done |].
    injection H as <-. split.
    + by apply (find_None (fun u => User.email u = RegisterPage.email formData)).
    + eexists. split; [done |]. split; [done |].
      apply validateEmail_trim, validateForm_email, Hv.
Qed.

Lemma accepted_email_is_trimmed_witness :
  JS.trim (JS.str "alice@x.org") = JS.str "alice@x.org"
  /\ exists u,
       userDatabase (RegisterPage.handleSubmit alice 5 stamp empty_store).1
       = [u]
       /\ User.email u = RegisterPage.email alice.
Proof.
  split.
  - apply (proj1 accepted_email_is_trimmed). vm_compute. reflexivity.
  - destruct (proj2 accepted_email_is_trimmed alice 5 stamp empty_store
                (RegisterPage.handleSubmit alice 5 stamp empty_store).1)
      as (_ & u & Hdb & _ & He); [vm_compute; reflexivity |].
    exists u. split; [exact Hdb | exact He].
Defined.

(** ** Profile edits *)

Section Profile.

Import ProfilePage.

Local Ltac case_conditions :=
  repeat match goal with
    | |- context [if ?b then _ else _] =>
        match type of b with bool => destruct b end
    end.

Lemma validateEditForm_email (editData : EditData) :
  validateEditForm editData = true ->
  validateEmail (email editData) = true.
Proof.
  unfold validateEditForm, formErrors.
  destruct (validateEmail (email editData)); [done |]. cbn [negb].
  case_conditions; simpl; done.
Qed.

(** The three ways the handler can end. *)
Lemma handleSave_cases (user : User.t) (editData : EditData) (st : Store) :
  (validateEditForm editData = false
   /\ handleSave user editData st = (st, FieldErrors (formErrors editData)))
  \/ (validateEditForm editData = true
      /\ is_Some (existingUser user editData (userDatabase st))
      /\ handleSave user editData st
         = (st, FieldErrors
                  [("email", "This email is already in use")]%string))
  \/ (validateEditForm editData = true
      /\ existingUser user editData (userDatabase st) = None
      /\ handleSave user editData st
         = (saved user editData st, Saved (updatedUser user editData))).
Proof.
  unfold handleSave, saved.
  destruct (validateEditForm editData); cbn [negb]; [| by left].
  right. destruct (existingUser _ _ _) eqn:E; [left | right]; done.
Qed.

Lemma existingUser_Some (user u : User.t) (editData : EditData)
    (db : list User.t) :
  existingUser user editData db = Some u ->
  email editData <> User.email user
  /\ u ∈ db /\ User.email u = email editData /\ User.id u <> User.id user.
Proof.
  unfold existingUser. case_bool_decide as Hne; [| done].
  intros (i & Hi & [He Hid] & _)%find_Some.
  split; [done |]. split; [by eapply list_elem_of_lookup_2 | done].
Qed.

Lemma existingUser_None (user : User.t) (editData : EditData)
    (db : list User.t) :
  existingUser user editData db = None ->
  email editData = User.email user
  \/ Forall (fun u => ~ (User.email u = email editData
                         /\ User.id u <> User.id user)) db.
Proof.
  unfold existingUser. case_bool_decide as Hne.
  - intros H. right.
    by apply (find_None (fun u => User.email u = email editData
                                  /\ User.id u <> User.id user)).
  - intros _. left. by destruct (decide (email editData = User.email user)).
Qed.

Lemma NoDup_insert_fresh {A} (l : list A) (i : nat) (x : A) :
  NoDup l -> (forall j, j <> i -> l !! j <> Some x) ->
  NoDup (<[i:=x]> l).
Proof.
  rewrite !NoDup_alt. intros Hl Hfresh j k y Hj Hk.
  apply list_lookup_insert_Some in Hj as [(<- & <- & _) | [Hji Hj]];
    apply list_lookup_insert_Some in Hk as [(<- & ? & _) | [Hki Hk]];
    try done.
  - subst. by destruct (Hfresh k).
  - subst. by destruct (Hfresh j).
  - by eapply Hl.
Qed.

(** With distinct ids, a record of the collection is the one found under
    its id. *)
Lemma findIndex_held (db : list User.t) (i : nat) (user : User.t) :
  NoDup (ids db) -> db !! i = Some user ->
  JS.findIndex (fun u => User.id u = User.id user) db = Some i.
Proof.
  intros Hids Hi. apply findIndex_Some. exists user.
  split; [done |]. split; [done |]. intros j y Hj Hlt Hy.
  assert (j = i); [| lia].
  apply (proj1 (NoDup_alt (ids db)) Hids j i (User.id user)); unfold ids.
  - rewrite list_lookup_fmap, Hj. simpl. by rewrite Hy.
  - by rewrite list_lookup_fmap, Hi.
Qed.

(** A save never changes the ids of the collection. *)
Lemma saved_ids (user : User.t) (editData : EditData) (st : Store) :
  ids (userDatabase (saved user editData st)) = ids (userDatabase st).
Proof.
  unfold saved.
  destruct (JS.findIndex _ (userDatabase st)) as [i|] eqn:E; [| done].
  apply findIndex_Some in E as (x & Hi & Hx & _).
  cbn [updateLocalStorage userDatabase]. unfold ids.
  rewrite list_fmap_insert. apply list_insert_id.
  rewrite list_lookup_fmap, Hi. simpl. by rewrite Hx.
Qed.

Lemma handleSave_ids (user : User.t) (editData : EditData) (st : Store) :
  ids (userDatabase (handleSave user editData st).1) = ids (userDatabase st).
Proof.
  destruct (handleSave_cases user editData st)
    as [[_ ->] | [(_ & _ & ->) | (_ & _ & ->)]]; cbn [fst]; try done.
  apply saved_ids.
Qed.

Lemma saved_emails_NoDup (user : User.t) (editData : EditData) (st : Store) :
  NoDup (emails (userDatabase st)) -> NoDup (ids (userDatabase st)) ->
  user ∈ userDatabase st ->
  validateEditForm editData = true ->
  existingUser user editData (userDatabase st) = None ->
  NoDup (emails (userDatabase (saved user editData st))).
Proof.
  intros Hemails Hids [i Hi]%list_elem_of_lookup_1 Hvalid Hscan.
  unfold saved. rewrite (findIndex_held _ i user Hids Hi).
  cbn [updateLocalStorage userDatabase]. unfold emails.
  rewrite list_fmap_insert. cbn [updatedUser User.email].
  rewrite (validateEmail_trim _ (validateEditForm_email _ Hvalid)).
  apply existingUser_None in Hscan as [-> | Hscan].
  - rewrite list_insert_id; [done |]. by rewrite list_lookup_fmap, Hi.
  - apply NoDup_insert_fresh; [done |]. intros j Hji.
    rewrite list_lookup_fmap. destruct (userDatabase st !! j) as [y|] eqn:Hj;
      [| done].
    intros [= He]. rewrite Forall_forall in Hscan.
    apply (Hscan y); [eapply list_elem_of_In, list_elem_of_lookup_2, Hj |].
    split; [done |]. intros Hid. apply Hji.
    apply (proj1 (NoDup_alt (ids (userDatabase st))) Hids j i (User.id user));
      unfold ids.
    + rewrite list_lookup_fmap, Hj. simpl. by rewrite Hid.
    + by rewrite list_lookup_fmap, Hi.
Qed.

End Profile.

(** The duplicate scan of a save, for every store and every valid edit
    input: when the patch's email differs from the edited record's current
    email and equals the email of a record with another id, the save fails
    with "This email is already in use" and the store is unchanged; an edit
    that keeps the record's own email skips the scan and succeeds. *)
Lemma changed_email_scan (st : Store) (user : User.t)
    (editData : ProfilePage.EditData) :
  ProfilePage.validateEditForm editData = true ->
  let r := ProfilePage.handleSave user editData st in
  (ProfilePage.email editData <> User.email user ->
     (exists u, u ∈ userDatabase st
                /\ User.email u = ProfilePage.email editData
                /\ User.id u <> User.id user) ->
     r = (st, ProfilePage.FieldErrors
                [("email", "This email is already in use")]%string))
  /\ (ProfilePage.email editData = User.email user ->
        ProfilePage.existingUser user editData (userDatabase st) = None
        /\ r.2 = ProfilePage.Saved (ProfilePage.updatedUser user editData)).
Proof.
  intros Hvalid r. subst r.
  destruct (handleSave_cases user editData st)
    as [[Hv _] | [(_ & Hsome & ->) | (_ & Hnone & ->)]]; [congruence | |].
  - split; [done |]. intros He. destruct Hsome as [u Hu].
    by apply existingUser_Some in Hu as [? _].
  - split; [| done]. intros Hne (u & Hin & Hu & Hid).
    apply existingUser_None in Hnone as [? | Hno]; [done |].
    rewrite Forall_forall in Hno.
    by destruct (Hno u (proj1 (list_elem_of_In _ _) Hin)).
Qed.

(** C7, as the code has it.  For every successful save of a record that
    the collection holds under its id (the record found by the id is the
    edited record), only the first name, last name and email of that record
    are replaced: its id, password and creation timestamp are unchanged,
    every other record is unchanged, the record keeps its position, and the
    collection is written to the slot. *)
Theorem update_frame (st st' : Store) (user u' : User.t)
    (editData : ProfilePage.EditData) (i : nat) :
  userDatabase st !! i = Some user ->
  JS.findIndex (fun u => User.id u = User.id user) (userDatabase st) = Some i ->
  ProfilePage.handleSave user editData st = (st', ProfilePage.Saved u') ->
  (User.id u' = User.id user
   /\ User.password u' = User.password user
   /\ User.memberSince u' = User.memberSince user
   /\ User.firstName u' = JS.trim (ProfilePage.firstName editData)
   /\ User.lastName u' = JS.trim (ProfilePage.lastName editData)
   /\ User.email u' = JS.trim (ProfilePage.email editData))
  /\ userDatabase st' = <[i := u']> (userDatabase st)
  /\ userDatabase st' !! i = Some u'
  /\ (forall j, j <> i -> userDatabase st' !! j = userDatabase st !! j)
  /\ List.length (userDatabase st') = List.length (userDatabase st)
  /\ users_slot st'
     = Some (JSON.stringify (map User.to_object (userDatabase st')))
  /\ loadUserDatabase (users_slot st') = Some (userDatabase st').
Proof.
  intros Hi Hfind H.
  destruct (handleSave_cases user editData st)
    as [[_ E] | [(_ & _ & E) | (_ & _ & E)]];
    rewrite E in H; [done | done |].
  injection H as <- <-. unfold ProfilePage.saved. rewrite Hfind.
  cbn [updateLocalStorage userDatabase users_slot].
  split; [done |]. split; [done |].
  split; [apply list_lookup_insert_eq; by eapply lookup_lt_Some |].
  split; [intros j Hj; by apply list_lookup_insert_ne |].
  split; [apply length_insert |]. split; [done |].
  exact (load_updateLocalStorage
           {| userDatabase := _; users_slot := users_slot st |}).
Qed.

Lemma update_frame_witness :
  let r := ProfilePage.handleSave eve (edit " Eva " "Eden" "eva@x.org")
             plain_store in
  userDatabase r.1
  = [cat; User.mk (JS.str "2") (JS.str "Eva") (JS.str "Eden")
            (JS.str "eva@x.org") (JS.str "secretE") stamp].
Proof.
  intros r.
  destruct (update_frame plain_store r.1 eve
              (ProfilePage.updatedUser eve (edit " Eva " "Eden" "eva@x.org"))
              (edit " Eva " "Eden" "eva@x.org") 1)
    as (_ & Hdb & _); [reflexivity | reflexivity | reflexivity |].
  rewrite Hdb. reflexivity.
Defined.

(** C7, as stated, fails where two records carry the same id: saving the
    second one overwrites the first, password included, and leaves the
    edited record itself as it was. *)
Lemma update_overwrites_twin :
  let editData := edit "Benjamin" "Baker" "ben@x.org" in
  let r := ProfilePage.handleSave ben editData twin_store in
  userDatabase twin_store = [ann; ben]
  /\ r.2 = ProfilePage.Saved (ProfilePage.updatedUser ben editData)
  /\ userDatabase r.1 = [ProfilePage.updatedUser ben editData; ben]
  /\ userDatabase r.1 !! 0%nat <> userDatabase twin_store !! 0%nat
  /\ User.password <$> userDatabase r.1 !! 0%nat
     <> User.password <$> userDatabase twin_store !! 0%nat
  /\ ProfilePage.updatedUser ben editData <> ben.
Proof.
  intros editData r. split; [reflexivity |]. split; [reflexivity |].
  split; [reflexivity |].
  split; [| split]; vm_compute; discriminate.
Qed.

(** C1, as the code has it.  In a store whose records have pairwise
    distinct emails, a successful registration leaves the emails pairwise
    distinct, and so does a successful save of a record held in the store,
    provided the ids of the records are pairwise distinct too; the
    duplicate scan of a save never reports a record that carries the id of
    the record being edited. *)
Theorem email_uniqueness_preserved (st : Store) :
  NoDup (emails (userDatabase st)) ->
  (forall (formData : RegisterPage.FormData) (Date_now : N)
          (isoString : jsstring) (st' : Store),
     RegisterPage.handleSubmit formData Date_now isoString st
     = (st', RegisterPage.Success) ->
     NoDup (emails (userDatabase st')))
  /\ (forall (user u' : User.t) (editData : ProfilePage.EditData)
             (st' : Store),
        NoDup (ids (userDatabase st)) ->
        user ∈ userDatabase st ->
        ProfilePage.handleSave user editData st
        = (st', ProfilePage.Saved u') ->
        NoDup (emails (userDatabase st')))
  /\ (forall (user u : User.t) (editData : ProfilePage.EditData),
        ProfilePage.existingUser user editData (userDatabase st) = Some u ->
        User.id u <> User.id user /\ u <> user).
Proof.
  intros Hemails. split; [| split].
  - intros formData Date_now isoString st' H.
    destruct (handleSubmit_cases formData Date_now isoString st)
      as [[_ E] | [(_ & _ & E) | (Hv & Hno & E)]];
      rewrite E in H; [done | done |].
    injection H as <-. cbn [updateLocalStorage userDatabase]. unfold emails.
    rewrite map_app. cbn [map RegisterPage.newUser User.email].
    rewrite (validateEmail_trim _ (validateForm_email _ Hv)).
    apply list.NoDup_app. split; [done |]. split; [| apply NoDup_singleton].
    intros e He ->%list_elem_of_singleton.
    apply list_elem_of_fmap in He as (u & Hu & Hin).
    rewrite Forall_forall in Hno.
    by destruct (Hno u (proj1 (list_elem_of_In _ _) Hin)).
  - intros user u' editData st' Hids Hin H.
    destruct (handleSave_cases user editData st)
      as [[_ E] | [(_ & _ & E) | (Hv & Hscan & E)]];
      rewrite E in H; [done | done |].
    injection H as <- _. by apply saved_emails_NoDup.
  - intros user u editData (_ & _ & _ & Hid)%existingUser_Some.
    split; [done | by intros ->].
Qed.

Lemma email_uniqueness_preserved_witness :
  NoDup (emails (userDatabase
                   (RegisterPage.handleSubmit alice 5 stamp empty_store).1))
  /\ NoDup (emails (userDatabase
                      (ProfilePage.handleSave eve
                         (edit "Eve" "Eden" "eva@x.org") plain_store).1)).
Proof.
  split.
  - apply (proj1 (email_uniqueness_preserved empty_store NoDup_nil_2)
             alice 5 stamp).
    vm_compute. reflexivity.
  - assert (H0 : NoDup (emails (userDatabase plain_store)))
      by (apply (bool_decide_unpack _); vm_compute; exact I).
    apply (proj1 (proj2 (email_uniqueness_preserved plain_store H0)) eve
             (ProfilePage.updatedUser eve (edit "Eve" "Eden" "eva@x.org"))
             (edit "Eve" "Eden" "eva@x.org")).
    + apply (bool_decide_unpack _). vm_compute. exact I.
    + right. left.
    + vm_compute. reflexivity.
Defined.

(** C1, as stated, fails where two records carry the same id: their emails
    are distinct, the first one is saved with the email of the second, the
    scan skips the second because of its id, and two records end up with the
    same email. *)
Lemma update_breaks_email_uniqueness :
  let editData := edit "Ann" "Archer" "ben@x.org" in
  let r := ProfilePage.handleSave ann editData twin_store in
  NoDup (emails (userDatabase twin_store))
  /\ ann ∈ userDatabase twin_store
  /\ r.2 = ProfilePage.Saved (ProfilePage.updatedUser ann editData)
  /\ emails (userDatabase r.1) = [JS.str "ben@x.org"; JS.str "ben@x.org"]
  /\ ~ NoDup (emails (userDatabase r.1)).
Proof.
  intros editData r. split; [| split; [left | split; [reflexivity |]]].
  - apply (bool_decide_unpack _). vm_compute. exact I.
  - assert (E : emails (userDatabase r.1)
                = [JS.str "ben@x.org"; JS.str "ben@x.org"]) by reflexivity.
    split; [exact E |]. rewrite E. intros Hnd.
    apply list.NoDup_cons in Hnd as [Hnotin _]. apply Hnotin. left.
Qed.

(** ** Runs of the application *)

Section Runs.

Lemma str_inj (s1 s2 : string) : JS.str s1 = JS.str s2 -> s1 = s2.
Proof.
  unfold JS.str. intros H.
  apply (f_equal (map ascii_of_N)) in H. rewrite !map_map in H.
  rewrite !(map_ext _ (fun a => a) ascii_N_embedding), !map_id in H.
  rewrite <- (string_of_list_ascii_of_string s1),
    <- (string_of_list_ascii_of_string s2). by rewrite H.
Qed.

(** Two clock values with the same decimal digits are the same value. *)
Lemma toString_inj (n m : N) : JS.toString n = JS.toString m -> n = m.
Proof. unfold JS.toString. intros H%str_inj. by apply pretty_N_inj in H. Qed.

Lemma login_cases (email password : jsstring) (st : Store) :
  (exists user, LoginPage.handleSubmit email password st
                = (st, LoginPage.LoggedIn user)
                /\ user ∈ userDatabase st
                /\ User.email user = email /\ User.password user = password)
  \/ (exists errors, LoginPage.handleSubmit email password st
                     = (st, LoginPage.FieldErrors errors))
  \/ (exists error, LoginPage.handleSubmit email password st
                    = (st, LoginPage.Error error)).
Proof.
  unfold LoginPage.handleSubmit, LoginPage.authenticate.
  destruct (negb _); [right; left; by eexists |].
  destruct (JS.falsy _); [right; left; by eexists |].
  destruct (JS.find _ _) as [user|] eqn:E; [left | right; right; by eexists].
  exists user. apply find_Some in E as (i & Hi & [? ?] & _).
  split; [done |]. split; [by eapply list_elem_of_lookup_2 | done].
Qed.

Lemma register_cases (formData : RegisterPage.FormData) (Date_now : N)
    (isoString : jsstring) (st : Store) :
  (RegisterPage.handleSubmit formData Date_now isoString st).1 = st
  \/ (RegisterPage.validateForm formData = true
      /\ (RegisterPage.handleSubmit formData Date_now isoString st).1
         = updateLocalStorage
             {| userDatabase :=
                  userDatabase st
                  ++ [RegisterPage.newUser formData Date_now isoString];
                users_slot := users_slot st |}).
Proof.
  destruct (handleSubmit_cases formData Date_now isoString st)
    as [[_ ->] | [(_ & _ & ->) | (? & _ & ->)]]; [by left | by left | by right].
Qed.

Lemma saved_cases (user : User.t) (editData : ProfilePage.EditData)
    (st : Store) :
  (ProfilePage.saved user editData st = st
   /\ Forall (fun u => User.id u <> User.id user) (userDatabase st))
  \/ (exists i x,
        userDatabase st !! i = Some x /\ User.id x = User.id user
        /\ ProfilePage.saved user editData st
           = updateLocalStorage
               {| userDatabase :=
                    <[i := ProfilePage.updatedUser user editData]>
                      (userDatabase st);
                  users_slot := users_slot st |}).
Proof.
  unfold ProfilePage.saved.
  destruct (JS.findIndex _ (userDatabase st)) as [i|] eqn:E.
  - right. apply findIndex_Some in E as (x & Hi & Hx & _). by exists i, x.
  - left. split; [done |].
    by apply (findIndex_None (fun u => User.id u = User.id user)).
Qed.

Lemma newUser_wellformed (formData : RegisterPage.FormData) (Date_now : N)
    (isoString : jsstring) :
  RegisterPage.validateForm formData = true ->
  wellformed (RegisterPage.newUser formData Date_now isoString).
Proof.
  intros Hv. pose proof (validateForm_email _ Hv) as He.
  destruct (validateForm_password _ Hv) as [Hlen _].
  split; cbn [RegisterPage.newUser User.email User.password].
  - by rewrite (validateEmail_trim _ He).
  - intros E. rewrite E in Hlen. cbn in Hlen. lia.
Qed.

Lemma updatedUser_wellformed (user : User.t)
    (editData : ProfilePage.EditData) :
  ProfilePage.validateEditForm editData = true -> wellformed user ->
  wellformed (ProfilePage.updatedUser user editData).
Proof.
  intros Hv [_ Hp]. pose proof (validateEditForm_email _ Hv) as He.
  split; cbn [ProfilePage.updatedUser User.email User.password]; [| done].
  by rewrite (validateEmail_trim _ He).
Qed.

Lemma synced_stored (db : list User.t) (slot : option jsstring) :
  synced (updateLocalStorage {| userDatabase := db; users_slot := slot |}).
Proof.
  exact (load_updateLocalStorage {| userDatabase := db; users_slot := slot |}).
Qed.

Lemma invariant_init : invariant App.init.
Proof. split; [done |]. split; [constructor | done]. Qed.

Lemma step_invariant (a : App.t) (e : App.Event) :
  invariant a -> invariant (App.step a e).
Proof.
  unfold invariant, db. intros (Hsync & Hwf & Hsession).
  destruct e as [email password | formData Date_now isoString
                | editData | | page |];
    destruct a as [st page' user'];
    cbn [App.store App.currentPage App.currentUser] in *.
  - (* login *)
    destruct page'; cbn [App.step App.currentPage App.store]; try done.
    destruct (login_cases email password st)
      as [(user & -> & Hin & _) | [[errors ->] | [error ->]]];
      cbn [App.store App.currentUser]; try done.
    split; [done |]. split; [done |]. by intros u [= <-].
  - (* registration *)
    destruct page'; cbn [App.step App.currentPage App.store]; try done.
    destruct (register_cases formData Date_now isoString st)
      as [-> | [Hv ->]]; cbn [App.store App.currentUser]; [done |].
    split; [apply synced_stored |].
    cbn [updateLocalStorage userDatabase]. split.
    + apply Forall_app. split; [done |].
      apply Forall_singleton. by apply newUser_wellformed.
    + intros u Hu. apply elem_of_app. left. by apply Hsession.
  - (* profile save *)
    destruct page', user' as [user|];
      cbn [App.step App.currentPage App.currentUser App.store]; try done.
    specialize (Hsession user eq_refl).
    destruct (handleSave_cases user editData st)
      as [[_ ->] | [(_ & _ & ->) | (Hv & _ & ->)]];
      cbn [App.store App.currentUser];
      [split; [done |]; split; [done |]; by intros u [= <-] .. |].
    assert (Huser : wellformed user).
    { rewrite list.Forall_forall in Hwf. by apply Hwf. }
    destruct (saved_cases user editData st)
      as [[_ Hnone] | (i & x & Hi & Hx & ->)].
    { rewrite list.Forall_forall in Hnone. by destruct (Hnone user Hsession). }
    split; [apply synced_stored |].
    cbn [updateLocalStorage userDatabase]. split.
    + apply Forall_insert; [done |]. by apply updatedUser_wellformed.
    + intros u [= <-].
      eapply list_elem_of_lookup_2, list_lookup_insert_eq.
      by eapply lookup_lt_Some.
  - (* logout *)
    destruct page', user'; cbn [App.step App.currentPage App.currentUser
      App.store]; done.
  - (* navigation *)
    cbn [App.step App.currentPage App.currentUser App.store]. done.
  - (* reload *)
    assert (E : App.step {| App.store := st; App.currentPage := page';
                            App.currentUser := user' |} App.Reload
                = {| App.store := {| userDatabase := userDatabase st;
                                     users_slot := users_slot st |};
                     App.currentPage := App.login;
                     App.currentUser := None |}).
    { destruct page', user'; cbn [App.step App.currentPage App.currentUser
        App.store]; by rewrite Hsync. }
    rewrite E. cbn [App.store App.currentUser userDatabase]. done.
Qed.

Lemma run_invariant (events : list App.Event) :
  forall a : App.t, invariant a -> invariant (App.run a events).
Proof.
  induction events as [|e events IH]; intros a Ha; [done |].
  apply (IH (App.step a e)). by apply step_invariant.
Qed.

(** Every state that a run from the first launch reaches. *)
Lemma reachable_invariant (events : list App.Event) :
  invariant (App.run App.init events).
Proof. apply run_invariant, invariant_init. Qed.

(** One event either keeps the ids of the collection or, for a
    registration, appends the digits of the clock value that it read. *)
Lemma step_ids (a : App.t) (e : App.Event) :
  invariant a ->
  ids (db (App.step a e)) = ids (db a)
  \/ exists formData Date_now isoString,
       e = App.SubmitRegister formData Date_now isoString
       /\ ids (db (App.step a e)) = ids (db a) ++ [JS.toString Date_now].
Proof.
  unfold db. intros (Hsync & _ & _).
  destruct e as [email password | formData Date_now isoString
                | editData | | page |];
    destruct a as [st page' user'];
    cbn [App.store App.currentPage App.currentUser] in *.
  - left. destruct page'; cbn [App.step App.currentPage App.store]; try done.
    by destruct (login_cases email password st)
      as [(user & -> & _) | [[errors ->] | [error ->]]].
  - destruct page'; cbn [App.step App.currentPage App.store];
      try (by left).
    destruct (register_cases formData Date_now isoString st)
      as [-> | [_ ->]]; [by left |].
    right. exists formData, Date_now, isoString. split; [done |].
    cbn [updateLocalStorage userDatabase App.store]. unfold ids.
    by rewrite map_app.
  - left. destruct page', user' as [user|];
      cbn [App.step App.currentPage App.currentUser App.store]; try done.
    pose proof (handleSave_ids user editData st) as H.
    destruct (ProfilePage.handleSave user editData st) as [st' []];
      cbn [fst] in H; done.
  - left. destruct page', user'; cbn [App.step App.currentPage
      App.currentUser App.store]; done.
  - by left.
  - left. destruct page', user'; cbn [App.step App.currentPage
      App.currentUser App.store]; by rewrite Hsync.
Qed.

Lemma clock_readings_cons (e : App.Event) (events : list App.Event) :
  App.clock_readings (e :: events)
  = match e with
    | App.SubmitRegister _ Date_now _ =>
        Date_now :: App.clock_readings events
    | _ => App.clock_readings events
    end.
Proof. by destruct e. Qed.

Lemma run_ids_NoDup (events : list App.Event) :
  forall a : App.t,
    invariant a ->
    NoDup (ids (db a)) ->
    NoDup (App.clock_readings events) ->
    (forall n, n ∈ App.clock_readings events -> JS.toString n ∉ ids (db a)) ->
    NoDup (ids (db (App.run a events))).
Proof.
  induction events as [|e events IH]; intros a Ha Hids Hclock Hfresh; [done |].
  change (App.run a (e :: events)) with (App.run (App.step a e) events).
  rewrite clock_readings_cons in Hclock, Hfresh.
  pose proof (step_invariant a e Ha) as Ha'.
  destruct (step_ids a e Ha) as [E | (fd & now & iso & -> & E)].
  - apply IH; [done | by rewrite E | |].
    + destruct e; try done. by apply list.NoDup_cons in Hclock as [_ ?].
    + intros n Hn. rewrite E. apply Hfresh.
      destruct e; try done. by right.
  - apply list.NoDup_cons in Hclock as [Hnow Hclock]. apply IH; [done | | done |].
    + rewrite E. apply list.NoDup_app. split; [done |].
      split; [| apply NoDup_singleton].
      intros i Hi ->%list_elem_of_singleton.
      by apply (Hfresh now); [left |].
    + intros n Hn. rewrite E. intros [Hin | Hin]%elem_of_app.
      * by apply (Hfresh n); [right |].
      * apply list_elem_of_singleton, toString_inj in Hin as ->. done.
Qed.

(** Where the records are as the forms let them in, the whole login handler
    lets a user in exactly when the lookup has a match. *)
Lemma handleSubmit_logs_in_iff (email password : jsstring) (st : Store) :
  Forall wellformed (userDatabase st) ->
  (exists user, (LoginPage.handleSubmit email password st).2
                = LoginPage.LoggedIn user)
  <-> exists u, u ∈ userDatabase st
                /\ User.email u = email /\ User.password u = password.
Proof.
  intros Hwf. split.
  - intros [user H].
    destruct (login_cases email password st)
      as [(user' & E & Hin & ? & ?) | [[errors E] | [error E]]];
      rewrite E in H; [| done | done].
    by exists user'.
  - intros (u & Hin & <- & <-).
    rewrite list.Forall_forall in Hwf. destruct (Hwf u Hin) as [He Hp].
    rewrite handleSubmit_validated by done.
    unfold LoginPage.authenticate.
    destruct (JS.find _ (userDatabase st)) as [v|] eqn:E; [by eexists |].
    apply find_None in E. rewrite list.Forall_forall in E.
    by destruct (E u Hin).
Qed.

(** Where emails are pairwise distinct and the edited record is in the
    collection, an email held by a record with another id is not the edited
    record's own. *)
Lemma other_record_email_differs (db : list User.t) (user u : User.t)
    (mail : jsstring) :
  NoDup (emails db) -> user ∈ db -> u ∈ db ->
  User.email u = mail -> User.id u <> User.id user ->
  mail <> User.email user.
Proof.
  intros Hnd [i Hi]%list_elem_of_lookup_1 [j Hj]%list_elem_of_lookup_1
    Hu Hid ->.
  assert (i = j) as ->.
  { apply (proj1 (NoDup_alt (emails db)) Hnd i j (User.email user));
      unfold emails; rewrite list_lookup_fmap.
    - by rewrite Hi.
    - rewrite Hj. simpl. by rewrite Hu. }
  congruence.
Qed.

(** In every state reached from the first launch, the login handler lets
    a user in exactly when some record has that email and that password. *)
Lemma reachable_login (events : list App.Event) (email password : jsstring) :
  let st := App.store (App.run App.init events) in
  (exists user, (LoginPage.handleSubmit email password st).2
                = LoginPage.LoggedIn user)
  <-> exists u, u ∈ userDatabase st
                /\ User.email u = email /\ User.password u = password.
Proof.
  intros st. apply handleSubmit_logs_in_iff.
  by destruct (reachable_invariant events) as (_ & ? & _).
Qed.

(** Loading the page again in a reached state finds the same collection. *)
Lemma reachable_reload (events : list App.Event) :
  let a := App.run App.init events in
  db (App.step a App.Reload) = db a
  /\ App.currentUser (App.step a App.Reload) = None.
Proof.
  intros a. destruct (reachable_invariant events) as (Hsync & _ & _).
  fold a in Hsync. unfold synced in Hsync. unfold db.
  destruct a as [st page user]; cbn [App.store] in *.
  destruct page, user; cbn [App.step App.currentPage App.currentUser
    App.store]; by rewrite Hsync.
Qed.

(** With a clock that never repeats, every stored record is the one found
    under its id, which is what the frame property of a save asks of the
    edited record. *)
Lemma reachable_held_under_id (events : list App.Event) (user : User.t) :
  NoDup (App.clock_readings events) ->
  App.currentUser (App.run App.init events) = Some user ->
  exists i, db (App.run App.init events) !! i = Some user
            /\ JS.findIndex (fun u => User.id u = User.id user)
                 (db (App.run App.init events)) = Some i.
Proof.
  intros Hclock Huser.
  destruct (reachable_invariant events) as (_ & _ & Hsession).
  apply Hsession, list_elem_of_lookup_1 in Huser as [i Hi].
  exists i. split; [done |]. apply findIndex_held; [| done].
  apply run_ids_NoDup; [apply invariant_init | apply NoDup_nil_2 | done |].
  intros n _ Hin. by apply elem_of_nil in Hin.
Qed.

End Runs.

(** ** The duplicate check of a save *)

Section DuplicateCheck.

Lemma elem_of_insert_cases {A} (l : list A) (i : nat) (x y : A) :
  y ∈ <[i:=x]> l -> y = x \/ y ∈ l.
Proof.
  intros [j Hj]%list_elem_of_lookup_1.
  apply list_lookup_insert_Some in Hj as [(_ & -> & _) | [_ Hj]]; [by left |].
  right. by eapply list_elem_of_lookup_2.
Qed.

(** What the scan leaves: after it found nothing, every record with the
    patch's email carries the id of the edited record. *)
Lemma scan_passed (user v : User.t) (editData : ProfilePage.EditData)
    (l : list User.t) :
  email_determines_id l -> user ∈ l -> v ∈ l ->
  ProfilePage.existingUser user editData l = None ->
  User.email v = ProfilePage.email editData ->
  User.id v = User.id user.
Proof.
  intros Hdet Huser Hv Hscan He.
  apply existingUser_None in Hscan as [E | Hno].
  - apply Hdet; [done | done | congruence].
  - rewrite list.Forall_forall in Hno.
    destruct (decide (User.id v = User.id user)) as [| Hne]; [done |].
    by destruct (Hno v Hv).
Qed.

Lemma step_email_determines_id (a : App.t) (e : App.Event) :
  invariant a -> email_determines_id (db a) ->
  email_determines_id (db (App.step a e)).
Proof.
  unfold invariant, db. intros (Hsync & _ & Hsession) Hdet.
  destruct e as [email password | formData Date_now isoString
                | editData | | page |];
    destruct a as [st page' user'];
    cbn [App.store App.currentPage App.currentUser] in *.
  - destruct page'; cbn [App.step App.currentPage App.store]; try done.
    by destruct (login_cases email password st)
      as [(user & -> & _) | [[errors ->] | [error ->]]].
  - destruct page'; cbn [App.step App.currentPage App.store]; try done.
    destruct (handleSubmit_cases formData Date_now isoString st)
      as [[_ ->] | [(_ & _ & ->) | (Hv & Hno & ->)]]; [done | done |].
    cbn [fst updateLocalStorage userDatabase].
    pose proof (validateEmail_trim _ (validateForm_email _ Hv)) as Hnew.
    rewrite list.Forall_forall in Hno.
    intros u v [Hu | ->%list_elem_of_singleton]%elem_of_app
      [Hv' | ->%list_elem_of_singleton]%elem_of_app E.
    + by apply Hdet.
    + cbn [RegisterPage.newUser User.email] in E. rewrite Hnew in E.
      by destruct (Hno u Hu).
    + cbn [RegisterPage.newUser User.email] in E. rewrite Hnew in E.
      by destruct (Hno v Hv').
    + done.
  - destruct page', user' as [user|];
      cbn [App.step App.currentPage App.currentUser App.store]; try done.
    specialize (Hsession user eq_refl).
    destruct (handleSave_cases user editData st)
      as [[_ ->] | [(_ & _ & ->) | (Hv & Hscan & ->)]];
      cbn [App.store]; [done | done |].
    destruct (saved_cases user editData st)
      as [[-> _] | (i & x & Hi & Hx & ->)]; [done |].
    cbn [updateLocalStorage userDatabase].
    pose proof (validateEmail_trim _ (validateEditForm_email _ Hv)) as Hnew.
    assert (Hup : forall v, v ∈ userDatabase st ->
                    User.email v
                    = User.email (ProfilePage.updatedUser user editData) ->
                    User.id v
                    = User.id (ProfilePage.updatedUser user editData)).
    { intros v Hv' E. cbn [ProfilePage.updatedUser User.email User.id] in *.
      rewrite Hnew in E. by eapply scan_passed. }
    intros u v [-> | Hu]%elem_of_insert_cases
      [-> | Hv']%elem_of_insert_cases E.
    + done.
    + symmetry. by apply Hup.
    + by apply Hup.
    + by apply Hdet.
  - destruct page', user'; cbn [App.step App.currentPage App.currentUser
      App.store]; done.
  - done.
  - destruct page', user'; cbn [App.step App.currentPage App.currentUser
      App.store]; by rewrite Hsync.
Qed.

(** In every state reached from the first launch, whatever the clock
    read, two records with the same email carry the same id. *)
Lemma reachable_email_determines_id (events : list App.Event) :
  email_determines_id (db (App.run App.init events)).
Proof.
  enough (H : forall a, invariant a -> email_determines_id (db a) ->
                        email_determines_id (db (App.run a events))).
  { apply H; [apply invariant_init |]. intros u v Hu. by apply elem_of_nil in Hu. }
  induction events as [|e events IH]; intros a Ha Hdet; [done |].
  apply (IH (App.step a e)); [by apply step_invariant |].
  by apply step_email_determines_id.
Qed.

Lemma distinct_emails_determine_id (l : list User.t) :
  NoDup (emails l) -> email_determines_id l.
Proof.
  intros Hnd u v [i Hi]%list_elem_of_lookup_1 [j Hj]%list_elem_of_lookup_1 E.
  assert (i = j) as ->; [| congruence].
  apply (proj1 (NoDup_alt (emails l)) Hnd i j (User.email u));
    unfold emails; rewrite list_lookup_fmap.
  - by rewrite Hi.
  - rewrite Hj. simpl. by rewrite E.
Qed.

(** Where the email determines the id and the edited record is in the
    collection, the duplicate check is as the store operation promises. *)
Lemma duplicate_check_in_wellkept_store (st : Store) (user : User.t)
    (editData : ProfilePage.EditData) :
  email_determines_id (userDatabase st) -> user ∈ userDatabase st ->
  ProfilePage.validateEditForm editData = true ->
  ((exists u, u ∈ userDatabase st
              /\ User.email u = ProfilePage.email editData
              /\ User.id u <> User.id user) ->
   ProfilePage.handleSave user editData st
   = (st, ProfilePage.FieldErrors
            [("email", "This email is already in use")]%string))
  /\ (ProfilePage.email editData = User.email user ->
      ProfilePage.existingUser user editData (userDatabase st) = None
      /\ (ProfilePage.handleSave user editData st).2
         = ProfilePage.Saved (ProfilePage.updatedUser user editData)).
Proof.
  intros Hdet Huser Hvalid.
  destruct (changed_email_scan st user editData Hvalid) as [Hchanged Hkept].
  split; [| done]. intros (u & Hu & He & Hid). apply Hchanged; [| by exists u].
  intros E. apply Hid. apply Hdet; [done | done | congruence].
Qed.

End DuplicateCheck.

(** C6.  For every store whose records have pairwise distinct emails and
    which holds the edited record, and for every store reached from the
    first launch with the logged-in user as the edited record, and for
    every valid edit input: the save fails with "This email is already in
    use" when the patch's email equals the email of a different record (one
    whose id differs from the edited record's id), and then the store is
    unchanged; an edit that keeps the record's own email passes the
    duplicate check and succeeds. *)
Theorem update_duplicate_check :
  (forall (st : Store) (user : User.t) (editData : ProfilePage.EditData),
     NoDup (emails (userDatabase st)) ->
     user ∈ userDatabase st ->
     ProfilePage.validateEditForm editData = true ->
     ((exists u, u ∈ userDatabase st
                 /\ User.email u = ProfilePage.email editData
                 /\ User.id u <> User.id user) ->
      ProfilePage.handleSave user editData st
      = (st, ProfilePage.FieldErrors
               [("email", "This email is already in use")]%string))
     /\ (ProfilePage.email editData = User.email user ->
         ProfilePage.existingUser user editData (userDatabase st) = None
         /\ (ProfilePage.handleSave user editData st).2
            = ProfilePage.Saved (ProfilePage.updatedUser user editData)))
  /\ (forall (events : list App.Event) (user : User.t)
             (editData : ProfilePage.EditData),
        let st := App.store (App.run App.init events) in
        App.currentUser (App.run App.init events) = Some user ->
        ProfilePage.validateEditForm editData = true ->
        ((exists u, u ∈ userDatabase st
                    /\ User.email u = ProfilePage.email editData
                    /\ User.id u <> User.id user) ->
         ProfilePage.handleSave user editData st
         = (st, ProfilePage.FieldErrors
                  [("email", "This email is already in use")]%string))
        /\ (ProfilePage.email editData = User.email user ->
            ProfilePage.existingUser user editData (userDatabase st) = None
            /\ (ProfilePage.handleSave user editData st).2
               = ProfilePage.Saved (ProfilePage.updatedUser user editData))).
Proof.
  split.
  - intros st user editData Hnd Huser Hvalid.
    apply duplicate_check_in_wellkept_store; [| done | done].
    by apply distinct_emails_determine_id.
  - intros events user editData st Huser Hvalid. subst st.
    apply duplicate_check_in_wellkept_store; [| | done].
    + apply reachable_email_determines_id.
    + destruct (reachable_invariant events) as (_ & _ & Hsession).
      by apply Hsession.
Qed.

Lemma update_duplicate_check_witness :
  ProfilePage.handleSave cat (edit "Cat" "Cole" "eve@x.org") plain_store
  = (plain_store,
     ProfilePage.FieldErrors [("email", "This email is already in use")]%string)
  /\ (ProfilePage.handleSave cat (edit "Catherine" "Cole" "cat@x.org")
        plain_store).2
     = ProfilePage.Saved
         (ProfilePage.updatedUser cat (edit "Catherine" "Cole" "cat@x.org"))
  /\ (let a := App.run App.init
                 [App.Navigate App.register;
                  App.SubmitRegister alice 5 stamp;
                  App.SubmitRegister bob 5 stamp;
                  App.Navigate App.login;
                  App.SubmitLogin (JS.str "alice@x.org") (JS.str "secret1")] in
      ProfilePage.handleSave (RegisterPage.newUser alice 5 stamp)
        (edit "Alice" "Archer" "alice@x.org") (App.store a)
      <> (App.store a,
          ProfilePage.FieldErrors
            [("email", "This email is already in use")]%string)).
Proof.
  assert (Hnd : NoDup (emails (userDatabase plain_store)))
    by (apply (bool_decide_unpack _); vm_compute; exact I).
  assert (Hcat : cat ∈ userDatabase plain_store) by left.
  split; [| split].
  - apply (proj1 (proj1 update_duplicate_check plain_store cat
                    (edit "Cat" "Cole" "eve@x.org") Hnd Hcat eq_refl)).
    exists eve. split; [right; left |]. split; [reflexivity |].
    vm_compute. discriminate.
  - apply (proj2 (proj1 update_duplicate_check plain_store cat
                    (edit "Catherine" "Cole" "cat@x.org") Hnd Hcat eq_refl)).
    reflexivity.
  - intros a.
    destruct (proj2 (proj2 update_duplicate_check
                       [App.Navigate App.register;
                        App.SubmitRegister alice 5 stamp;
                        App.SubmitRegister bob 5 stamp;
                        App.Navigate App.login;
                        App.SubmitLogin (JS.str "alice@x.org")
                          (JS.str "secret1")]
                       (RegisterPage.newUser alice 5 stamp)
                       (edit "Alice" "Archer" "alice@x.org")
                       eq_refl eq_refl) eq_refl) as [_ Hsaved].
    fold a in Hsaved. intros E. rewrite E in Hsaved. discriminate Hsaved.
Defined.

(** C9, as the code has it.  The identifier of a record is generated when
    the record is created, as the decimal digits of the clock value read
    then, and a save keeps the identifiers; so in every store state reached
    from the first launch by a run whose registrations read pairwise
    distinct clock values, any two distinct records have distinct
    identifiers. *)
Theorem ids_unique_when_clock_fresh :
  (forall events : list App.Event,
     NoDup (App.clock_readings events) ->
     NoDup (ids (db (App.run App.init events))))
  /\ (forall (formData : RegisterPage.FormData) (Date_now : N)
             (isoString : jsstring) (st st' : Store),
        RegisterPage.handleSubmit formData Date_now isoString st
        = (st', RegisterPage.Success) ->
        exists u, userDatabase st' = userDatabase st ++ [u]
                  /\ User.id u = JS.toString Date_now)
  /\ (forall (user : User.t) (editData : ProfilePage.EditData) (st : Store),
        ids (userDatabase (ProfilePage.handleSave user editData st).1)
        = ids (userDatabase st)).
Proof.
  split; [| split].
  - intros events Hclock.
    apply run_ids_NoDup; [apply invariant_init | apply NoDup_nil_2 | done |].
    intros n _ Hin. by apply elem_of_nil in Hin.
  - intros formData Date_now isoString st st' H.
    destruct (handleSubmit_cases formData Date_now isoString st)
      as [[_ E] | [(_ & _ & E) | (_ & _ & E)]];
      rewrite E in H; [done | done |].
    injection H as <-. by eexists.
  - apply handleSave_ids.
Qed.

Lemma ids_unique_when_clock_fresh_witness :
  NoDup (ids (db (App.run App.init
                    [App.Navigate App.register;
                     App.SubmitRegister alice 5 stamp;
                     App.SubmitRegister bob 6 stamp]))).
Proof.
  apply (proj1 ids_unique_when_clock_fresh).
  apply (bool_decide_unpack _). vm_compute. exact I.
Defined.

(** C9, as stated, fails when two registrations read the same clock value:
    the two records get the same identifier. *)
Lemma same_clock_reading_same_id :
  let a := App.run App.init
             [App.Navigate App.register;
              App.SubmitRegister alice 5 stamp;
              App.SubmitRegister bob 5 stamp] in
  emails (db a) = [JS.str "alice@x.org"; JS.str "bob@x.org"]
  /\ ids (db a) = [JS.str "5"; JS.str "5"]
  /\ ~ NoDup (ids (db a)).
Proof.
  intros a.
  assert (E : ids (db a) = [JS.str "5"; JS.str "5"])
    by (vm_compute; reflexivity).
  split; [vm_compute; reflexivity |]. split; [exact E |].
  rewrite E. intros Hnd.
  apply list.NoDup_cons in Hnd as [Hnotin _]. apply Hnotin. left.
Qed.

(** From such a state the application reaches a collection in which two
    records share an email: the first twin logs in and saves the email of
    the second. *)
Example twins_reach_shared_email :
  let a := App.run App.init
             [App.Navigate App.register;
              App.SubmitRegister alice 5 stamp;
              App.SubmitRegister bob 5 stamp;
              App.Navigate App.login;
              App.SubmitLogin (JS.str "alice@x.org") (JS.str "secret1");
              App.SaveProfile (edit "Alice" "Archer" "bob@x.org")] in
  emails (db a) = [JS.str "bob@x.org"; JS.str "bob@x.org"].
Proof. vm_compute. reflexivity. Qed.

(** * Further properties of the code *)

(** ** The shape of an accepted email *)

Section EmailShape.

Lemma plus_loop_spec (p : N -> bool) (k : jsstring -> bool) (s : jsstring) :
  plus_loop p k s = true <->
  exists pre rest, s = pre ++ rest /\ pre <> []
                   /\ Forall (fun c => p c = true) pre /\ k rest = true.
Proof.
  induction s as [|c s' IH]; cbn [plus_loop].
  - split; [done |]. intros (pre & rest & E & Hne & _).
    symmetry in E. by apply app_eq_nil in E as [? _].
  - rewrite andb_true_iff, orb_true_iff, IH. split.
    + intros [Hc [(pre & rest & -> & _ & Hpre & Hk) | Hk]].
      * exists (c :: pre), rest. split; [done |]. split; [done |].
        split; [by constructor | done].
      * exists [c], s'. split; [done |]. split; [done |].
        split; [by repeat constructor | done].
    + intros ([|c' pre] & rest & E & Hne & Hpre & Hk); [done |].
      injection E as <- ->. apply list.Forall_cons in Hpre as [Hc Hpre].
      split; [done |]. destruct pre as [|c'' pre]; [by right |].
      left. by exists (c'' :: pre), rest.
Qed.

Lemma not_space_at_plain (c : N) :
  atom_matches not_space_at c = true <-> plain c.
Proof.
  split; [apply not_space_at_spec |]. intros [Hs Hc].
  unfold not_space_at. cbn [atom_matches existsb item_matches].
  rewrite Hs. by destruct (N.eqb_spec c (char "@")).
Qed.

Lemma plus_plain_spec (k : jsstring -> bool) (s : jsstring) :
  plus_loop (atom_matches not_space_at) k s = true <->
  exists pre rest, s = pre ++ rest /\ pre <> []
                   /\ Forall plain pre /\ k rest = true.
Proof.
  rewrite plus_loop_spec. split; intros (pre & rest & ? & ? & Hpre & ?);
    exists pre, rest; repeat split; try done;
    eapply Forall_impl; try exact Hpre; intros c; apply not_space_at_plain.
Qed.

Lemma one_lit_spec (c : N) (re : regex) (s : jsstring) :
  match_here (One (Lit c) :: re) false s = true <->
  exists s', s = c :: s' /\ match_here re false s' = true.
Proof.
  cbn [match_here atom_matches]. destruct s as [|c' s'].
  - split; [done | by intros (? & ? & _)].
  - rewrite andb_true_iff, N.eqb_eq. split.
    + intros [-> H]. by exists s'.
    + intros (? & [= -> ->] & H). done.
Qed.

End EmailShape.

(** X1.  The email check accepts exactly the strings of the form
    local [@] domain [.] tld whose three parts are non-empty and contain
    neither white space nor [@]. *)
Theorem validateEmail_shape (s : jsstring) :
  validateEmail s = true <-> email_shaped s.
Proof.
  unfold validateEmail, emailRegex, email_shaped. rewrite test_bol.
  change (match_here (Plus not_space_at :: ?re) true s)
    with (plus_loop (atom_matches not_space_at) (match_here re false) s).
  rewrite plus_plain_spec. split.
  - intros (l & r1 & -> & Hl & Hpl & H).
    apply one_lit_spec in H as (r2 & -> & H).
    change (match_here (Plus not_space_at :: ?re) false r2)
      with (plus_loop (atom_matches not_space_at) (match_here re false) r2)
      in H.
    apply plus_plain_spec in H as (d & r3 & -> & Hd & Hpd & H).
    apply one_lit_spec in H as (r4 & -> & H).
    change (match_here [Plus not_space_at; Eol] false r4)
      with (plus_loop (atom_matches not_space_at)
              (match_here [Eol] false) r4) in H.
    apply plus_plain_spec in H as (t & r5 & -> & Ht & Hpt & H).
    destruct r5; [| done]. rewrite app_nil_r.
    by exists l, d, t.
  - intros (l & d & t & -> & Hl & Hd & Ht & Hpl & Hpd & Hpt).
    exists l, (char "@" :: d ++ char "." :: t).
    split; [done |]. split; [done |]. split; [done |].
    apply one_lit_spec. eexists. split; [done |].
    change (match_here (Plus not_space_at :: ?re) false ?r)
      with (plus_loop (atom_matches not_space_at) (match_here re false) r).
    apply plus_plain_spec. exists d, (char "." :: t).
    split; [done |]. split; [done |]. split; [done |].
    apply one_lit_spec. eexists. split; [done |].
    change (match_here [Plus not_space_at; Eol] false t)
      with (plus_loop (atom_matches not_space_at) (match_here [Eol] false) t).
    apply plus_plain_spec. exists t, []. rewrite app_nil_r. done.
Qed.

(** ** Password strength: what makes it grow *)

Section StrengthOrder.

Lemma score_app_le (p q : jsstring) : (score p <= score (p ++ q))%nat.
Proof.
  unfold score, criteria.
  assert (H1 : (8 <= JS.length p)%nat -> (8 <= JS.length (p ++ q))%nat).
  { unfold JS.length. rewrite length_app. lia. }
  assert (HE : forall P : N -> Prop, Exists P p -> Exists P (p ++ q)).
  { intros P H. apply Exists_app. by left. }
  pose proof (HE is_lowercase) as H2. pose proof (HE is_uppercase) as H3.
  pose proof (HE is_digit) as H4.
  pose proof (HE (fun c => ~ is_alphanumeric c)) as H5.
  destruct (bool_decide_reflect (8 <= JS.length p)%nat);
    destruct (bool_decide_reflect (Exists is_lowercase p));
    destruct (bool_decide_reflect (Exists is_uppercase p));
    destruct (bool_decide_reflect (Exists is_digit p));
    destruct (bool_decide_reflect
                (Exists (fun c => ~ is_alphanumeric c) p));
    repeat match goal with
      | H : ?A -> ?B, a : ?A |- _ =>
          rewrite (bool_decide_eq_true_2 B (H a)); clear H
      end;
    repeat case_bool_decide; cbn; lia.
Qed.

Lemma classes_disjoint (c : N) :
  (is_lowercase c -> ~ is_uppercase c /\ ~ is_digit c)
  /\ (is_uppercase c -> ~ is_lowercase c /\ ~ is_digit c)
  /\ (is_digit c -> ~ is_lowercase c /\ ~ is_uppercase c).
Proof.
  unfold is_lowercase, is_uppercase, is_digit.
  change (char "a") with 97. change (char "z") with 122.
  change (char "A") with 65. change (char "Z") with 90.
  change (char "0") with 48. change (char "9") with 57. lia.
Qed.

Lemma Exists_Forall_meet (P Q : N -> Prop) (s : jsstring) :
  Exists P s -> Forall Q s -> exists c, P c /\ Q c.
Proof.
  intros (c & Hin & Hc)%list.Exists_exists HQ.
  rewrite list.Forall_forall in HQ. exists c. split; [done | by apply HQ].
Qed.

End StrengthOrder.

(** X2.  Typing more never lowers the strength shown: the strength of a
    password followed by further characters is at least the strength of the
    password. *)
Theorem strength_grows_with_typing (p q : jsstring) :
  (rank (calculatePasswordStrength p)
   <= rank (calculatePasswordStrength (p ++ q)))%nat.
Proof.
  rewrite !strength_by_score. pose proof (score_app_le p q) as Hs.
  assert (Hl : (JS.length p <= JS.length (p ++ q))%nat).
  { unfold JS.length. rewrite length_app. lia. }
  destruct (Nat.ltb_spec (JS.length p) 6); [cbn; lia |].
  destruct (Nat.ltb_spec (JS.length (p ++ q)) 6); [lia |].
  destruct (Nat.leb_spec (score p) 2); [cbn; lia |].
  destruct (Nat.leb_spec (score (p ++ q)) 2); [lia |].
  destruct (Nat.leb_spec (score p) 4);
    destruct (Nat.leb_spec (score (p ++ q)) 4); cbn; lia.
Qed.

(** X3.  A password drawn from a single character class (only lowercase
    letters, only uppercase letters, only digits, or only other
    characters) is weak, whatever its length. *)
Theorem single_class_is_weak (p : jsstring) :
  Forall is_lowercase p \/ Forall is_uppercase p \/ Forall is_digit p
  \/ Forall (fun c => ~ is_alphanumeric c) p ->
  calculatePasswordStrength p = weak.
Proof.
  intros H. rewrite strength_by_score.
  destruct (JS.length p <? 6)%nat; [done |].
  assert (Hs : (score p <= 2)%nat); [| by destruct (Nat.leb_spec (score p) 2); [| lia]].
  unfold score, criteria.
  assert (Hmeet : forall P Q : N -> Prop,
             (forall c, P c -> Q c -> False) ->
             Forall Q p -> ~ Exists P p).
  { intros P Q HPQ HQ HP.
    destruct (Exists_Forall_meet P Q p HP HQ) as (c & ? & ?). by eapply HPQ. }
  destruct H as [H | [H | [H | H]]].
  - rewrite (bool_decide_eq_false_2 (Exists is_uppercase p)),
      (bool_decide_eq_false_2 (Exists is_digit p)),
      (bool_decide_eq_false_2 (Exists (fun c => ~ is_alphanumeric c) p)).
    + repeat case_bool_decide; cbn; lia.
    + apply (Hmeet _ is_lowercase); [| done].
      intros c Hn Hl. apply Hn. by left.
    + apply (Hmeet _ is_lowercase); [| done].
      intros c Hd Hl. by destruct (proj1 (classes_disjoint c) Hl).
    + apply (Hmeet _ is_lowercase); [| done].
      intros c Hu Hl. by destruct (proj1 (classes_disjoint c) Hl).
  - rewrite (bool_decide_eq_false_2 (Exists is_lowercase p)),
      (bool_decide_eq_false_2 (Exists is_digit p)),
      (bool_decide_eq_false_2 (Exists (fun c => ~ is_alphanumeric c) p)).
    + repeat case_bool_decide; cbn; lia.
    + apply (Hmeet _ is_uppercase); [| done].
      intros c Hn Hu. apply Hn. right. by left.
    + apply (Hmeet _ is_uppercase); [| done].
      intros c Hd Hu.
      by destruct (proj1 (proj2 (classes_disjoint c)) Hu).
    + apply (Hmeet _ is_uppercase); [| done].
      intros c Hl Hu.
      by destruct (proj1 (proj2 (classes_disjoint c)) Hu).
  - rewrite (bool_decide_eq_false_2 (Exists is_lowercase p)),
      (bool_decide_eq_false_2 (Exists is_uppercase p)),
      (bool_decide_eq_false_2 (Exists (fun c => ~ is_alphanumeric c) p)).
    + repeat case_bool_decide; cbn; lia.
    + apply (Hmeet _ is_digit); [| done].
      intros c Hn Hd. apply Hn. right. by right.
    + apply (Hmeet _ is_digit); [| done].
      intros c Hu Hd.
      by destruct (proj2 (proj2 (classes_disjoint c)) Hd).
    + apply (Hmeet _ is_digit); [| done].
      intros c Hl Hd.
      by destruct (proj2 (proj2 (classes_disjoint c)) Hd).
  - rewrite (bool_decide_eq_false_2 (Exists is_lowercase p)),
      (bool_decide_eq_false_2 (Exists is_uppercase p)),
      (bool_decide_eq_false_2 (Exists is_digit p)).
    + repeat case_bool_decide; cbn; lia.
    + apply (Hmeet _ (fun c => ~ is_alphanumeric c)); [| done].
      intros c Hd Hn. apply Hn. right. by right.
    + apply (Hmeet _ (fun c => ~ is_alphanumeric c)); [| done].
      intros c Hu Hn. apply Hn. right. by left.
    + apply (Hmeet _ (fun c => ~ is_alphanumeric c)); [| done].
      intros c Hl Hn. apply Hn. by left.
Qed.

Lemma single_class_is_weak_witness :
  calculatePasswordStrength (JS.str "12345678901234567890") = weak.
Proof.
  apply single_class_is_weak. right. right. left.
  apply (bool_decide_unpack _). vm_compute. exact I.
Defined.

(** ** Trimming *)

Section Trim.

Lemma dropWhile_split (p : N -> bool) (s : jsstring) :
  exists pre, s = pre ++ JS.dropWhile p s
              /\ Forall (fun c => p c = true) pre.
Proof.
  induction s as [|c s' (pre & E & Hpre)]; [by exists [] |].
  cbn [JS.dropWhile]. destruct (p c) eqn:Hc.
  - exists (c :: pre). split; [by rewrite <- app_comm_cons, <- E |].
    by constructor.
  - by exists [].
Qed.

Lemma dropWhile_start (p : N -> bool) (s : jsstring) :
  match JS.dropWhile p s with
  | [] => True
  | c :: _ => p c = false
  end.
Proof.
  induction s as [|c s' IH]; [done |]. cbn [JS.dropWhile].
  destruct (p c) eqn:Hc; done.
Qed.

Lemma dropWhile_fixed (p : N -> bool) (s : jsstring) :
  match s with [] => True | c :: _ => p c = false end ->
  JS.dropWhile p s = s.
Proof. destruct s as [|c s']; [done |]. cbn. by intros ->. Qed.

Lemma trimEnd_prefix (s : jsstring) :
  exists post, s = JS.trimEnd s ++ post.
Proof.
  unfold JS.trimEnd, JS.trimStart.
  destruct (dropWhile_split JS.isWhiteSpace (rev s)) as (pre & E & _).
  exists (rev pre). rewrite <- rev_app_distr, <- E. by rewrite rev_involutive.
Qed.

(** Trimming what is trimmed changes nothing. *)
Lemma trim_trim (s : jsstring) : JS.trim (JS.trim s) = JS.trim s.
Proof.
  unfold JS.trim.
  assert (Hstart : JS.trimStart (JS.trimEnd (JS.trimStart s))
                   = JS.trimEnd (JS.trimStart s)).
  { unfold JS.trimStart at 1. apply dropWhile_fixed.
    pose proof (dropWhile_start JS.isWhiteSpace s) as Hh.
    fold (JS.trimStart s) in Hh.
    destruct (trimEnd_prefix (JS.trimStart s)) as (post & E).
    destruct (JS.trimEnd (JS.trimStart s)) as [|c t]; [done |].
    rewrite E in Hh. done. }
  rewrite Hstart. unfold JS.trimEnd.
  rewrite rev_involutive. f_equal. apply dropWhile_fixed.
  apply dropWhile_start.
Qed.

Lemma falsy_false (s : jsstring) : JS.falsy s = false <-> s <> [].
Proof. by destruct s. Qed.

Lemma validateEmail_nonempty (s : jsstring) :
  validateEmail s = true -> s <> [].
Proof. by intros H ->. Qed.

End Trim.

(** ** Form validation *)

Lemma validateForm_conditions (formData : RegisterPage.FormData) :
  RegisterPage.validateForm formData = true <->
  JS.trim (RegisterPage.firstName formData) <> []
  /\ JS.trim (RegisterPage.lastName formData) <> []
  /\ validateEmail (RegisterPage.email formData) = true
  /\ (6 <= JS.length (RegisterPage.password formData))%nat
  /\ RegisterPage.confirmPassword formData = RegisterPage.password formData.
Proof.
  split.
  - intros H. split; [| split; [| split]].
    + revert H. unfold RegisterPage.validateForm, RegisterPage.formErrors.
      destruct (JS.falsy (JS.trim (RegisterPage.firstName formData))) eqn:E;
        [| intros _; by apply falsy_false].
      repeat match goal with
        | |- context [if ?b then _ else _] =>
            match type of b with bool => destruct b end
        end; simpl; done.
    + revert H. unfold RegisterPage.validateForm, RegisterPage.formErrors.
      destruct (JS.falsy (JS.trim (RegisterPage.lastName formData))) eqn:E;
        [| intros _; by apply falsy_false].
      repeat match goal with
        | |- context [if ?b then _ else _] =>
            match type of b with bool => destruct b end
        end; simpl; done.
    + by apply validateForm_email.
    + by apply validateForm_password.
  - intros (Hf & Hl & He & Hp & Hc).
    unfold RegisterPage.validateForm, RegisterPage.formErrors.
    rewrite (proj2 (falsy_false _) Hf), (proj2 (falsy_false _) Hl).
    rewrite (validateEmail_trim _ He), He.
    rewrite (proj2 (falsy_false _) (validateEmail_nonempty _ He)).
    rewrite Hc.
    assert (Hne : RegisterPage.password formData <> []).
    { intros E. rewrite E in Hp. cbn in Hp. lia. }
    rewrite (proj2 (falsy_false _) Hne).
    destruct (Nat.ltb_spec (JS.length (RegisterPage.password formData)) 6);
      [lia |].
    cbn [negb]. rewrite bool_decide_eq_false_2; [done |]. by intros H'.
Qed.

Lemma validateEditForm_conditions (editData : ProfilePage.EditData) :
  ProfilePage.validateEditForm editData = true <->
  JS.trim (ProfilePage.firstName editData) <> []
  /\ JS.trim (ProfilePage.lastName editData) <> []
  /\ validateEmail (ProfilePage.email editData) = true.
Proof.
  split.
  - intros H. split; [| split].
    + revert H. unfold ProfilePage.validateEditForm, ProfilePage.formErrors.
      destruct (JS.falsy (JS.trim (ProfilePage.firstName editData))) eqn:E;
        [| intros _; by apply falsy_false].
      repeat match goal with
        | |- context [if ?b then _ else _] =>
            match type of b with bool => destruct b end
        end; simpl; done.
    + revert H. unfold ProfilePage.validateEditForm, ProfilePage.formErrors.
      destruct (JS.falsy (JS.trim (ProfilePage.lastName editData))) eqn:E;
        [| intros _; by apply falsy_false].
      repeat match goal with
        | |- context [if ?b then _ else _] =>
            match type of b with bool => destruct b end
        end; simpl; done.
    + by apply validateEditForm_email.
  - intros (Hf & Hl & He).
    unfold ProfilePage.validateEditForm, ProfilePage.formErrors.
    rewrite (proj2 (falsy_false _) Hf), (proj2 (falsy_false _) Hl).
    rewrite (validateEmail_trim _ He), He.
    by rewrite (proj2 (falsy_false _) (validateEmail_nonempty _ He)).
Qed.

(** X4.  The registration form passes validation exactly when the trimmed
    first and last names are not empty, the email has the accepted shape,
    the password has six code units or more, and the confirmation equals
    the password. *)
Theorem validateForm_iff (formData : RegisterPage.FormData) :
  RegisterPage.validateForm formData = true <->
  JS.trim (RegisterPage.firstName formData) <> []
  /\ JS.trim (RegisterPage.lastName formData) <> []
  /\ validateEmail (RegisterPage.email formData) = true
  /\ (6 <= JS.length (RegisterPage.password formData))%nat
  /\ RegisterPage.confirmPassword formData = RegisterPage.password formData.
Proof. apply validateForm_conditions. Qed.

(** X5.  The edit form passes validation exactly when the trimmed first
    and last names are not empty and the email has the accepted shape. *)
Theorem validateEditForm_iff (editData : ProfilePage.EditData) :
  ProfilePage.validateEditForm editData = true <->
  JS.trim (ProfilePage.firstName editData) <> []
  /\ JS.trim (ProfilePage.lastName editData) <> []
  /\ validateEmail (ProfilePage.email editData) = true.
Proof. apply validateEditForm_conditions. Qed.

(** X6.  Both validations report at most one message per field, so the
    list of messages is the [errors] object of the source: no key occurs
    twice. *)
Theorem form_errors_one_per_field :
  (forall formData : RegisterPage.FormData,
     NoDup (map fst (RegisterPage.formErrors formData)))
  /\ (forall editData : ProfilePage.EditData,
        NoDup (map fst (ProfilePage.formErrors editData))).
Proof.
  split.
  - intros formData. unfold RegisterPage.formErrors.
    repeat match goal with
      | |- context [if ?b then _ else _] =>
          match type of b with bool => destruct b end
      end; apply (bool_decide_unpack _); vm_compute; exact I.
  - intros editData. unfold ProfilePage.formErrors.
    repeat match goal with
      | |- context [if ?b then _ else _] =>
          match type of b with bool => destruct b end
      end; apply (bool_decide_unpack _); vm_compute; exact I.
Qed.

(** ** Registration and login together *)

Section RegisterLogin.

Lemma registered (formData : RegisterPage.FormData) (Date_now : N)
    (isoString : jsstring) (st st' : Store) :
  RegisterPage.handleSubmit formData Date_now isoString st
  = (st', RegisterPage.Success) ->
  RegisterPage.validateForm formData = true
  /\ Forall (fun u => User.email u <> RegisterPage.email formData)
       (userDatabase st)
  /\ st' = updateLocalStorage
             {| userDatabase :=
                  userDatabase st
                  ++ [RegisterPage.newUser formData Date_now isoString];
                users_slot := users_slot st |}.
Proof.
  intros H.
  destruct (handleSubmit_cases formData Date_now isoString st)
    as [[_ E] | [(_ & _ & E) | (Hv & Hno & E)]];
    rewrite E in H; [done | done |].
  by injection H as <-.
Qed.

Lemma newUser_email (formData : RegisterPage.FormData) (Date_now : N)
    (isoString : jsstring) :
  RegisterPage.validateForm formData = true ->
  User.email (RegisterPage.newUser formData Date_now isoString)
  = RegisterPage.email formData.
Proof. intros Hv. apply validateEmail_trim, validateForm_email, Hv. Qed.

Lemma newUser_normalised (formData : RegisterPage.FormData) (Date_now : N)
    (isoString : jsstring) :
  RegisterPage.validateForm formData = true ->
  normalised (RegisterPage.newUser formData Date_now isoString).
Proof.
  intros (Hf & Hl & He & Hp & _)%validateForm_conditions.
  unfold normalised. cbn [RegisterPage.newUser User.firstName User.lastName
    User.email User.password].
  rewrite !trim_trim, (validateEmail_trim _ He). done.
Qed.

End RegisterLogin.

(** X7.  Submitting again right after a successful registration: on the
    store that the registration returned, a registration with the same
    email and an otherwise valid form fails with "An account with this
    email already exists" and leaves that store as it is. *)
Theorem register_twice_fails (formData formData' : RegisterPage.FormData)
    (Date_now Date_now' : N) (isoString isoString' : jsstring)
    (st st' : Store) :
  RegisterPage.handleSubmit formData Date_now isoString st
  = (st', RegisterPage.Success) ->
  RegisterPage.validateForm formData' = true ->
  RegisterPage.email formData' = RegisterPage.email formData ->
  RegisterPage.handleSubmit formData' Date_now' isoString' st'
  = (st', RegisterPage.Error "An account with this email already exists").
Proof.
  intros (Hv & _ & ->)%registered Hv' He.
  destruct (handleSubmit_cases formData' Date_now' isoString'
              (updateLocalStorage
                 {| userDatabase :=
                      userDatabase st
                      ++ [RegisterPage.newUser formData Date_now isoString];
                    users_slot := users_slot st |}))
    as [[E _] | [(_ & _ & E) | (_ & Hno & _)]]; [congruence | done |].
  cbn [updateLocalStorage userDatabase] in Hno.
  apply Forall_app in Hno as [_ Hno]. apply list.Forall_cons in Hno as [Hno _].
  destruct Hno. rewrite He. by apply newUser_email.
Qed.

Lemma register_twice_fails_witness :
  RegisterPage.handleSubmit alice 9 stamp
    (RegisterPage.handleSubmit alice 5 stamp empty_store).1
  = ((RegisterPage.handleSubmit alice 5 stamp empty_store).1,
     RegisterPage.Error "An account with this email already exists").
Proof.
  apply (register_twice_fails alice alice 5 9 stamp stamp empty_store);
    vm_compute; reflexivity.
Defined.

(** The email stays taken only while a record carries it: once a save has
    changed the record's email, the old email registers again. *)
Example email_freed_by_save :
  let st1 := (RegisterPage.handleSubmit alice 5 stamp empty_store).1 in
  let st2 := (ProfilePage.handleSave (RegisterPage.newUser alice 5 stamp)
                (edit "Alice" "Archer" "al@x.org") st1).1 in
  (RegisterPage.handleSubmit alice 9 stamp st2).2 = RegisterPage.Success.
Proof. vm_compute. reflexivity. Qed.

(** X8.  After a successful registration, logging in with the email and
    the password of the form succeeds and hands over the record just
    created. *)
Theorem register_then_login (formData : RegisterPage.FormData) (Date_now : N)
    (isoString : jsstring) (st st' : Store) :
  RegisterPage.handleSubmit formData Date_now isoString st
  = (st', RegisterPage.Success) ->
  LoginPage.handleSubmit (RegisterPage.email formData)
    (RegisterPage.password formData) st'
  = (st', LoginPage.LoggedIn
            (RegisterPage.newUser formData Date_now isoString)).
Proof.
  intros (Hv & Hno & ->)%registered.
  pose proof (validateForm_email _ Hv) as He.
  destruct (validateForm_password _ Hv) as [Hlen _].
  rewrite handleSubmit_validated; [| done |].
  2:{ intros E. rewrite E in Hlen. cbn in Hlen. lia. }
  unfold LoginPage.authenticate. cbn [updateLocalStorage userDatabase].
  rewrite (proj2 (find_Some _ _
                    (RegisterPage.newUser formData Date_now isoString)));
    [done |].
  exists (List.length (userDatabase st)). split; [| split].
  - by rewrite lookup_app_r, Nat.sub_diag.
  - split; [by apply newUser_email | done].
  - intros j y Hj Hlt [Hy _]. rewrite lookup_app_l in Hj by done.
    rewrite list.Forall_forall in Hno.
    apply (Hno y); [by eapply list_elem_of_lookup_2 | done].
Qed.

Lemma register_then_login_witness :
  LoginPage.handleSubmit (JS.str "alice@x.org") (JS.str "secret1")
    (RegisterPage.handleSubmit alice 5 stamp empty_store).1
  = ((RegisterPage.handleSubmit alice 5 stamp empty_store).1,
     LoginPage.LoggedIn (RegisterPage.newUser alice 5 stamp)).
Proof.
  apply (register_then_login alice 5 stamp empty_store).
  vm_compute. reflexivity.
Defined.

(** X9.  The login handler never writes: whatever the inputs, the store
    after it is the store before it.  When it lets a user in, the email
    has the accepted shape, the password is not empty, and the record
    handed over is a record of the collection with exactly that email and
    password. *)
Theorem login_is_read_only (email password : jsstring) (st : Store) :
  (LoginPage.handleSubmit email password st).1 = st
  /\ forall user,
       (LoginPage.handleSubmit email password st).2 = LoginPage.LoggedIn user ->
       validateEmail email = true /\ password <> []
       /\ user ∈ userDatabase st
       /\ User.email user = email /\ User.password user = password.
Proof.
  unfold LoginPage.handleSubmit, LoginPage.authenticate.
  destruct (validateEmail email); cbn [negb]; [| done].
  destruct password as [|c password]; cbn [JS.falsy]; [done |].
  destruct (JS.find _ (userDatabase st)) as [v|] eqn:E; [| done].
  split; [done |]. intros user [= <-].
  apply find_Some in E as (i & Hi & [? ?] & _).
  split; [done |]. split; [done |].
  split; [by eapply list_elem_of_lookup_2 | done].
Qed.

(** X10.  A registration never removes or reorders records: the collection
    before it is a prefix of the collection after it, at most one record
    longer, and unless the outcome is the success the store is exactly as
    before. *)
Theorem register_only_appends (formData : RegisterPage.FormData)
    (Date_now : N) (isoString : jsstring) (st : Store) :
  let r := RegisterPage.handleSubmit formData Date_now isoString st in
  userDatabase st `prefix_of` userDatabase r.1
  /\ (List.length (userDatabase r.1) <= S (List.length (userDatabase st)))%nat
  /\ (r.2 <> RegisterPage.Success -> r.1 = st).
Proof.
  intros r. subst r.
  destruct (handleSubmit_cases formData Date_now isoString st)
    as [[_ ->] | [(_ & _ & ->) | (_ & _ & ->)]]; cbn [fst snd].
  - split; [done |]. split; [lia | done].
  - split; [done |]. split; [lia | done].
  - cbn [updateLocalStorage userDatabase].
    split; [by eexists |]. split; [| done].
    rewrite length_app. cbn. lia.
Qed.

(** X11.  The record that a successful registration stores is normalised:
    its names are trimmed and not empty, its email has the accepted shape,
    its password has six code units or more and is the password typed,
    unchanged, equal to the confirmation. *)
Theorem registered_record_normalised (formData : RegisterPage.FormData)
    (Date_now : N) (isoString : jsstring) (st st' : Store) :
  RegisterPage.handleSubmit formData Date_now isoString st
  = (st', RegisterPage.Success) ->
  exists u, userDatabase st' = userDatabase st ++ [u]
            /\ normalised u
            /\ User.password u = RegisterPage.password formData
            /\ User.password u = RegisterPage.confirmPassword formData
            /\ User.memberSince u = isoString.
Proof.
  intros (Hv & _ & ->)%registered.
  exists (RegisterPage.newUser formData Date_now isoString).
  split; [done |]. split; [by apply newUser_normalised |].
  split; [done |]. split; [| done].
  by destruct (validateForm_password _ Hv) as [_ ->].
Qed.

Lemma registered_record_normalised_witness :
  exists u,
    userDatabase (RegisterPage.handleSubmit alice 5 stamp empty_store).1 = [u]
    /\ User.firstName u = JS.str "Alice".
Proof.
  destruct (registered_record_normalised alice 5 stamp empty_store
              (RegisterPage.handleSubmit alice 5 stamp empty_store).1)
    as (u & Hdb & _); [vm_compute; reflexivity |].
  exists u. split; [exact Hdb |].
  vm_compute in Hdb. by injection Hdb as <-.
Defined.

(** ** Saving a profile *)

Section Saving.

Lemma reset_valid (user : User.t) :
  normalised user ->
  ProfilePage.validateEditForm (ProfileForm.reset user) = true.
Proof.
  intros (Hf & Hfn & Hl & Hln & He & _). apply validateEditForm_conditions.
  cbn [ProfileForm.reset ProfilePage.firstName ProfilePage.lastName
    ProfilePage.email]. by rewrite Hf, Hl.
Qed.

Lemma reset_updatedUser (user : User.t) :
  normalised user ->
  ProfilePage.updatedUser user (ProfileForm.reset user) = user.
Proof.
  intros (Hf & _ & Hl & _ & He & _). destruct user as [i f l e p m].
  unfold ProfilePage.updatedUser, ProfileForm.reset.
  cbn [User.id User.firstName User.lastName User.email User.password
    User.memberSince ProfilePage.firstName ProfilePage.lastName
    ProfilePage.email] in *.
  by rewrite Hf, Hl, (validateEmail_trim _ He).
Qed.

Lemma updatedUser_normalised (user : User.t)
    (editData : ProfilePage.EditData) :
  ProfilePage.validateEditForm editData = true -> normalised user ->
  normalised (ProfilePage.updatedUser user editData).
Proof.
  intros (Hf & Hl & He)%validateEditForm_conditions (_ & _ & _ & _ & _ & Hp).
  unfold normalised. cbn [ProfilePage.updatedUser User.firstName
    User.lastName User.email User.password].
  rewrite !trim_trim, (validateEmail_trim _ He). done.
Qed.

End Saving.

(** X12.  Saving the form as it was opened (or after Cancel put the
    record's own values back) changes nothing: for a normalised record that
    the collection holds under its id, the save succeeds, hands back the
    same record, leaves the collection as it was and writes it to the
    slot. *)
Theorem save_without_changes (st : Store) (user : User.t) (i : nat) :
  normalised user ->
  userDatabase st !! i = Some user ->
  JS.findIndex (fun u => User.id u = User.id user) (userDatabase st) = Some i ->
  let r := ProfilePage.handleSave user (ProfileForm.reset user) st in
  r.2 = ProfilePage.Saved user
  /\ userDatabase r.1 = userDatabase st
  /\ users_slot r.1
     = Some (JSON.stringify (map User.to_object (userDatabase st))).
Proof.
  intros Hn Hi Hfind r. subst r.
  destruct (handleSave_cases user (ProfileForm.reset user) st)
    as [[Hv _] | [(_ & [u Hu] & _) | (_ & _ & ->)]].
  - by rewrite reset_valid in Hv.
  - by apply existingUser_Some in Hu as [? _].
  - cbn [fst snd]. rewrite (reset_updatedUser _ Hn).
    unfold ProfilePage.saved. rewrite Hfind, (reset_updatedUser _ Hn).
    cbn [updateLocalStorage userDatabase users_slot].
    by rewrite list_insert_id.
Qed.

Lemma save_without_changes_witness :
  userDatabase (ProfilePage.handleSave eve (ProfileForm.reset eve)
                  plain_store).1
  = userDatabase plain_store.
Proof.
  apply (save_without_changes plain_store eve 1).
  - unfold normalised. vm_compute. repeat split; (discriminate || lia).
  - reflexivity.
  - reflexivity.
Defined.

(** X13.  When no record of the collection carries the id of the record
    being saved, the handler stores nothing: the collection and the slot
    are as before, whatever the outcome; and if the form is valid and no
    record has the patch's email, it still reports the save as done. *)
Theorem save_of_unknown_id (st : Store) (user : User.t)
    (editData : ProfilePage.EditData) :
  Forall (fun u => User.id u <> User.id user) (userDatabase st) ->
  (ProfilePage.handleSave user editData st).1 = st
  /\ (ProfilePage.validateEditForm editData = true ->
      Forall (fun u => User.email u <> ProfilePage.email editData)
        (userDatabase st) ->
      (ProfilePage.handleSave user editData st).2
      = ProfilePage.Saved (ProfilePage.updatedUser user editData)).
Proof.
  intros Hids.
  assert (Hsaved : ProfilePage.saved user editData st = st).
  { destruct (saved_cases user editData st)
      as [[-> _] | (i & x & Hi & Hx & _)]; [done |].
    rewrite list.Forall_forall in Hids.
    destruct (Hids x); [by eapply list_elem_of_lookup_2 | done]. }
  destruct (handleSave_cases user editData st)
    as [[Hv ->] | [(_ & [u Hu] & ->) | (_ & _ & ->)]]; cbn [fst snd].
  - split; [done | congruence].
  - split; [done |]. intros _ Hno.
    apply existingUser_Some in Hu as (_ & Hin & He & _).
    rewrite list.Forall_forall in Hno. by destruct (Hno u Hin).
  - by rewrite Hsaved.
Qed.

Lemma save_of_unknown_id_witness :
  ProfilePage.handleSave ann (edit "Ann" "Archer" "ann@x.org") plain_store
  = (plain_store,
     ProfilePage.Saved
       (ProfilePage.updatedUser ann (edit "Ann" "Archer" "ann@x.org"))).
Proof.
  assert (H : Forall (fun u => User.id u <> User.id ann)
                (userDatabase plain_store)).
  { repeat constructor; vm_compute; discriminate. }
  destruct (save_of_unknown_id plain_store ann
              (edit "Ann" "Archer" "ann@x.org") H) as [H1 H2].
  rewrite (surjective_pairing (ProfilePage.handleSave _ _ _)).
  rewrite H1, H2; [reflexivity | reflexivity |].
  repeat constructor; vm_compute; discriminate.
Defined.

(** ** What every run keeps true *)

Section RunInvariants.

Lemma step_normalised (a : App.t) (e : App.Event) :
  invariant a -> Forall normalised (db a) ->
  Forall normalised (db (App.step a e)).
Proof.
  unfold invariant, db. intros (Hsync & _ & Hsession) Hn.
  destruct e as [email password | formData Date_now isoString
                | editData | | page |];
    destruct a as [st page' user'];
    cbn [App.store App.currentPage App.currentUser] in *.
  - destruct page'; cbn [App.step App.currentPage App.store]; try done.
    by destruct (login_cases email password st)
      as [(user & -> & _) | [[errors ->] | [error ->]]].
  - destruct page'; cbn [App.step App.currentPage App.store]; try done.
    destruct (register_cases formData Date_now isoString st)
      as [-> | [Hv ->]]; [done |].
    cbn [updateLocalStorage userDatabase App.store].
    apply Forall_app. split; [done |].
    apply Forall_singleton. by apply newUser_normalised.
  - destruct page', user' as [user|];
      cbn [App.step App.currentPage App.currentUser App.store]; try done.
    specialize (Hsession user eq_refl).
    destruct (handleSave_cases user editData st)
      as [[_ ->] | [(_ & _ & ->) | (Hv & _ & ->)]];
      cbn [App.store]; [done | done |].
    destruct (saved_cases user editData st)
      as [[-> _] | (i & x & Hi & Hx & ->)]; [done |].
    cbn [updateLocalStorage userDatabase].
    apply Forall_insert; [done |]. apply updatedUser_normalised; [done |].
    rewrite list.Forall_forall in Hn. by apply Hn.
  - destruct page', user'; cbn [App.step App.currentPage App.currentUser
      App.store]; done.
  - done.
  - destruct page', user'; cbn [App.step App.currentPage App.currentUser
      App.store]; by rewrite Hsync.
Qed.

Lemma run_normalised (events : list App.Event) :
  forall a : App.t,
    invariant a -> Forall normalised (db a) ->
    Forall normalised (db (App.run a events)).
Proof.
  induction events as [|e events IH]; intros a Ha Hn; [done |].
  apply (IH (App.step a e)); [by apply step_invariant |].
  by apply step_normalised.
Qed.

Lemma run_app (a : App.t) (events more : list App.Event) :
  App.run a (events ++ more) = App.run (App.run a events) more.
Proof. apply fold_left_app. Qed.

Lemma run_ids_prefix (events : list App.Event) :
  forall a : App.t,
    invariant a -> ids (db a) `prefix_of` ids (db (App.run a events)).
Proof.
  induction events as [|e events IH]; intros a Ha; [done |].
  change (App.run a (e :: events)) with (App.run (App.step a e) events).
  etransitivity; [| apply IH, step_invariant, Ha].
  destruct (step_ids a e Ha) as [-> | (_ & now & _ & _ & ->)]; [done |].
  by eexists.
Qed.

Lemma step_page (a : App.t) (e : App.Event) :
  page_link e ->
  (App.currentPage a = App.profile -> is_Some (App.currentUser a)) ->
  App.currentPage (App.step a e) = App.profile ->
  is_Some (App.currentUser (App.step a e)).
Proof.
  intros He Ha.
  destruct e as [email password | formData Date_now isoString
                | editData | | page |];
    destruct a as [st page' user'];
    cbn [App.store App.currentPage App.currentUser] in *.
  - destruct page'; cbn [App.step App.currentPage App.store]; try done;
      try (by apply Ha).
    by destruct (login_cases email password st)
      as [(user & -> & _) | [[errors ->] | [error ->]]].
  - destruct page'; cbn [App.step App.currentPage App.store]; try done;
      try (by apply Ha).
  - destruct page', user' as [user|];
      cbn [App.step App.currentPage App.currentUser App.store];
      try done; try (by apply Ha).
    by destruct (ProfilePage.handleSave user editData st) as [st' []].
  - destruct page', user'; cbn [App.step App.currentPage App.currentUser
      App.store]; try done; try (by apply Ha).
  - destruct page; cbn [App.step App.currentPage]; done.
  - destruct page', user'; cbn [App.step App.currentPage App.currentUser
      App.store]; destruct (loadUserDatabase _); try done;
      try (by apply Ha).
Qed.

Lemma registered_emails_NoDup (formData : RegisterPage.FormData)
    (Date_now : N) (isoString : jsstring) (st : Store) :
  NoDup (emails (userDatabase st)) ->
  NoDup (emails (userDatabase
                   (RegisterPage.handleSubmit formData Date_now isoString
                      st).1)).
Proof.
  intros Hnd.
  destruct (handleSubmit_cases formData Date_now isoString st)
    as [[_ ->] | [(_ & _ & ->) | (Hv & Hno & ->)]]; [done | done |].
  cbn [fst updateLocalStorage userDatabase]. unfold emails.
  rewrite map_app. cbn [map]. rewrite (newUser_email _ _ _ Hv).
  apply list.NoDup_app. split; [done |]. split; [| apply NoDup_singleton].
  intros e He ->%list_elem_of_singleton.
  apply list_elem_of_fmap in He as (u & Hu & Hin).
  rewrite list.Forall_forall in Hno. by destruct (Hno u Hin).
Qed.

Lemma step_emails_NoDup (a : App.t) (e : App.Event) :
  invariant a -> NoDup (ids (db a)) -> NoDup (emails (db a)) ->
  NoDup (emails (db (App.step a e))).
Proof.
  unfold invariant, db. intros (Hsync & _ & Hsession) Hids Hemails.
  destruct e as [email password | formData Date_now isoString
                | editData | | page |];
    destruct a as [st page' user'];
    cbn [App.store App.currentPage App.currentUser] in *.
  - destruct page'; cbn [App.step App.currentPage App.store]; try done.
    by destruct (login_cases email password st)
      as [(user & -> & _) | [[errors ->] | [error ->]]].
  - destruct page'; cbn [App.step App.currentPage App.store]; try done.
    by apply registered_emails_NoDup.
  - destruct page', user' as [user|];
      cbn [App.step App.currentPage App.currentUser App.store]; try done.
    specialize (Hsession user eq_refl).
    destruct (handleSave_cases user editData st)
      as [[_ ->] | [(_ & _ & ->) | (Hv & Hscan & ->)]];
      cbn [App.store]; [done | done |].
    by apply saved_emails_NoDup.
  - destruct page', user'; cbn [App.step App.currentPage App.currentUser
      App.store]; done.
  - done.
  - destruct page', user'; cbn [App.step App.currentPage App.currentUser
      App.store]; by rewrite Hsync.
Qed.

Lemma run_unique (events : list App.Event) :
  forall a : App.t,
    invariant a ->
    NoDup (ids (db a)) -> NoDup (emails (db a)) ->
    NoDup (App.clock_readings events) ->
    (forall n, n ∈ App.clock_readings events -> JS.toString n ∉ ids (db a)) ->
    NoDup (emails (db (App.run a events))).
Proof.
  induction events as [|e events IH];
    intros a Ha Hids Hemails Hclock Hfresh; [done |].
  change (App.run a (e :: events)) with (App.run (App.step a e) events).
  pose proof (step_emails_NoDup a e Ha Hids Hemails) as Hemails'.
  pose proof (step_invariant a e Ha) as Ha'.
  rewrite clock_readings_cons in Hclock, Hfresh.
  destruct (step_ids a e Ha) as [E | (fd & now & iso & -> & E)].
  - apply IH; [done | by rewrite E | done | |].
    + destruct e; try done. by apply list.NoDup_cons in Hclock as [_ ?].
    + intros n Hn. rewrite E. apply Hfresh.
      destruct e; try done. by right.
  - apply list.NoDup_cons in Hclock as [Hnow Hclock].
    apply IH; [done | | done | done |].
    + rewrite E. apply list.NoDup_app. split; [done |].
      split; [| apply NoDup_singleton].
      intros i Hi ->%list_elem_of_singleton.
      by apply (Hfresh now); [left |].
    + intros n Hn. rewrite E. intros [Hin | Hin]%elem_of_app.
      * by apply (Hfresh n); [right |].
      * apply list_elem_of_singleton, toString_inj in Hin as ->. done.
Qed.

End RunInvariants.

(** X14.  In every state reached from the first launch the slot holds the
    collection: loading it gives [userDatabase] back, so loading the page
    again loses no record and ends the session. *)
Theorem slot_holds_collection (events : list App.Event) :
  let a := App.run App.init events in
  loadUserDatabase (users_slot (App.store a)) = Some (db a)
  /\ db (App.step a App.Reload) = db a
  /\ App.currentUser (App.step a App.Reload) = None
  /\ App.currentPage (App.step a App.Reload) = App.login.
Proof.
  intros a. destruct (reachable_invariant events) as (Hsync & _ & _).
  fold a in Hsync. split; [exact Hsync |]. unfold synced in Hsync. unfold db.
  destruct a as [st page user]; cbn [App.store] in *.
  destruct page, user; cbn [App.step App.currentPage App.currentUser
    App.store]; by rewrite Hsync.
Qed.

(** X15.  In every state reached from the first launch, the record shown
    on the profile page is a record of the collection. *)
Theorem session_user_is_stored (events : list App.Event) (u : User.t) :
  App.currentUser (App.run App.init events) = Some u ->
  u ∈ db (App.run App.init events).
Proof.
  intros H. destruct (reachable_invariant events) as (_ & _ & Hsession).
  by apply Hsession.
Qed.

Lemma session_user_is_stored_witness :
  RegisterPage.newUser alice 5 stamp
  ∈ db (App.run App.init
          [App.Navigate App.register; App.SubmitRegister alice 5 stamp;
           App.Navigate App.login;
           App.SubmitLogin (JS.str "alice@x.org") (JS.str "secret1")]).
Proof.
  apply session_user_is_stored. vm_compute. reflexivity.
Defined.

(** X16.  In every state reached from the first launch every record of the
    collection is normalised: names trimmed and not empty, an email of the
    accepted shape, a password of six code units or more. *)
Theorem stored_records_normalised (events : list App.Event) :
  Forall normalised (db (App.run App.init events)).
Proof.
  apply run_normalised; [apply invariant_init | constructor].
Qed.

(** X17.  Records are never deleted and never change place or id: along
    any continuation of a run, the ids of the collection before are a
    prefix of the ids after, so the collection never gets shorter. *)
Theorem records_never_deleted (events more : list App.Event) :
  ids (db (App.run App.init events))
    `prefix_of` ids (db (App.run App.init (events ++ more)))
  /\ (List.length (db (App.run App.init events))
      <= List.length (db (App.run App.init (events ++ more))))%nat.
Proof.
  rewrite run_app.
  pose proof (run_ids_prefix more _ (reachable_invariant events)) as Hp.
  split; [done |]. apply prefix_length in Hp. unfold ids in Hp.
  by rewrite !length_map in Hp.
Qed.

(** X18.  As long as navigation only goes where the pages' links go (to
    the login or the register page), the profile page is shown only with a
    user logged in. *)
Theorem profile_page_has_user (events : list App.Event) :
  Forall page_link events ->
  App.currentPage (App.run App.init events) = App.profile ->
  is_Some (App.currentUser (App.run App.init events)).
Proof.
  intros Hlinks.
  enough (H : forall a,
             (App.currentPage a = App.profile -> is_Some (App.currentUser a)) ->
             App.currentPage (App.run a events) = App.profile ->
             is_Some (App.currentUser (App.run a events)))
    by (apply H; done).
  induction Hlinks as [|e events He _ IH]; intros a Ha; [done |].
  change (App.run a (e :: events)) with (App.run (App.step a e) events).
  apply IH. by apply step_page.
Qed.

Lemma profile_page_has_user_witness :
  is_Some (App.currentUser
             (App.run App.init
                [App.Navigate App.register; App.SubmitRegister alice 5 stamp;
                 App.Navigate App.login;
                 App.SubmitLogin (JS.str "alice@x.org") (JS.str "secret1")])).
Proof.
  apply profile_page_has_user.
  - repeat constructor.
  - vm_compute. reflexivity.
Defined.

(** X19.  With a clock that never repeats, email uniqueness is an
    invariant of the application: in every state reached from the first
    launch by a run whose registrations read pairwise distinct clock
    values, the emails of the records are pairwise distinct. *)
Theorem emails_unique_when_clock_fresh (events : list App.Event) :
  NoDup (App.clock_readings events) ->
  NoDup (emails (db (App.run App.init events))).
Proof.
  intros Hclock.
  apply run_unique; [apply invariant_init | apply NoDup_nil_2
                    | apply NoDup_nil_2 | done |].
  intros n _ Hin. by apply elem_of_nil in Hin.
Qed.

Lemma emails_unique_when_clock_fresh_witness :
  NoDup (emails (db (App.run App.init
                       [App.Navigate App.register;
                        App.SubmitRegister alice 5 stamp;
                        App.SubmitRegister bob 6 stamp;
                        App.Navigate App.login;
                        App.SubmitLogin (JS.str "alice@x.org")
                          (JS.str "secret1");
                        App.SaveProfile (edit "Alice" "Archer" "bob@x.org")]))).
Proof.
  apply emails_unique_when_clock_fresh.
  apply (bool_decide_unpack _). vm_compute. exact I.
Defined.

(** ** The registration form while typing *)

(** X20.  Whatever is typed into the registration form, in any order, the
    strength indicator is that of the password field as it stands: hidden
    when the field is empty, and otherwise the strength of its content. *)
Theorem indicator_follows_password (changes : list (RegisterForm.Input * jsstring)) :
  let s := RegisterForm.typed changes RegisterForm.initial in
  RegisterForm.passwordStrength s
  = if JS.falsy (RegisterPage.password (RegisterForm.formData s)) then None
    else Some (calculatePasswordStrength
                 (RegisterPage.password (RegisterForm.formData s))).
Proof.
  cbn zeta.
  enough (H : forall s,
             RegisterForm.passwordStrength s
             = (if JS.falsy (RegisterPage.password (RegisterForm.formData s))
                then None
                else Some (calculatePasswordStrength
                             (RegisterPage.password (RegisterForm.formData s)))) ->
             RegisterForm.passwordStrength (RegisterForm.typed changes s)
             = (if JS.falsy (RegisterPage.password
                               (RegisterForm.formData
                                  (RegisterForm.typed changes s)))
                then None
                else Some (calculatePasswordStrength
                             (RegisterPage.password
                                (RegisterForm.formData
                                   (RegisterForm.typed changes s))))))
    by (apply H; reflexivity).
  induction changes as [|[name value] changes IH]; intros s Hs; [done |].
  change (RegisterForm.typed ((name, value) :: changes) s)
    with (RegisterForm.typed changes (RegisterForm.handleChange name value s)).
  apply IH. destruct name; cbn; done.
Qed.

(** ** Fields that stay as registered *)

Section Frozen.

Lemma clock_readings_app (events more : list App.Event) :
  App.clock_readings (events ++ more)
  = App.clock_readings events ++ App.clock_readings more.
Proof.
  induction events as [|e events IH]; [done |].
  rewrite <- app_comm_cons, !clock_readings_cons, IH. by destruct e.
Qed.

(** Every id of a reached collection is the digits of a clock value that a
    registration of the run read. *)
Lemma run_ids_from_clock (events : list App.Event) :
  forall (a : App.t) (i : jsstring),
    invariant a -> i ∈ ids (db (App.run a events)) ->
    i ∈ ids (db a)
    \/ exists n, n ∈ App.clock_readings events /\ i = JS.toString n.
Proof.
  induction events as [|e events IH]; intros a i Ha Hi; [by left |].
  change (App.run a (e :: events)) with (App.run (App.step a e) events) in Hi.
  rewrite clock_readings_cons.
  destruct (IH _ _ (step_invariant a e Ha) Hi) as [Hin | (n & Hn & ->)].
  - destruct (step_ids a e Ha) as [E | (fd & now & iso & -> & E)];
      rewrite E in Hin; [by left |].
    apply elem_of_app in Hin as [? | ->%list_elem_of_singleton]; [by left |].
    right. exists now. split; [left | done].
  - right. exists n. split; [| done]. destruct e; try done. by right.
Qed.

Lemma step_frozen (a : App.t) (e : App.Event) :
  invariant a -> NoDup (ids (db a)) ->
  map frozen (db a) `prefix_of` map frozen (db (App.step a e)).
Proof.
  unfold invariant, db. intros (Hsync & _ & Hsession) Hids.
  destruct e as [email password | formData Date_now isoString
                | editData | | page |];
    destruct a as [st page' user'];
    cbn [App.store App.currentPage App.currentUser] in *.
  - destruct page'; cbn [App.step App.currentPage App.store]; try done.
    by destruct (login_cases email password st)
      as [(user & -> & _) | [[errors ->] | [error ->]]].
  - destruct page'; cbn [App.step App.currentPage App.store]; try done.
    destruct (register_cases formData Date_now isoString st)
      as [-> | [_ ->]]; [done |].
    cbn [updateLocalStorage userDatabase App.store]. rewrite map_app.
    by eexists.
  - destruct page', user' as [user|];
      cbn [App.step App.currentPage App.currentUser App.store]; try done.
    specialize (Hsession user eq_refl).
    apply list_elem_of_lookup_1 in Hsession as [i Hi].
    pose proof (findIndex_held _ i user Hids Hi) as Hfind.
    destruct (handleSave_cases user editData st)
      as [[_ ->] | [(_ & _ & ->) | (_ & _ & ->)]];
      cbn [App.store]; [done | done |].
    unfold ProfilePage.saved. rewrite Hfind.
    cbn [updateLocalStorage userDatabase].
    rewrite list_fmap_insert, list_insert_id; [done |].
    by rewrite list_lookup_fmap, Hi.
  - destruct page', user'; cbn [App.step App.currentPage App.currentUser
      App.store]; done.
  - done.
  - destruct page', user'; cbn [App.step App.currentPage App.currentUser
      App.store]; by rewrite Hsync.
Qed.

Lemma run_frozen (events : list App.Event) :
  forall a : App.t,
    invariant a ->
    NoDup (ids (db a)) ->
    NoDup (App.clock_readings events) ->
    (forall n, n ∈ App.clock_readings events -> JS.toString n ∉ ids (db a)) ->
    map frozen (db a) `prefix_of` map frozen (db (App.run a events)).
Proof.
  induction events as [|e events IH]; intros a Ha Hids Hclock Hfresh; [done |].
  change (App.run a (e :: events)) with (App.run (App.step a e) events).
  etransitivity; [by apply step_frozen |].
  pose proof (step_invariant a e Ha) as Ha'.
  rewrite clock_readings_cons in Hclock, Hfresh.
  destruct (step_ids a e Ha) as [E | (fd & now & iso & -> & E)].
  - apply IH; [done | by rewrite E | |].
    + destruct e; try done. by apply list.NoDup_cons in Hclock as [_ ?].
    + intros n Hn. rewrite E. apply Hfresh.
      destruct e; try done. by right.
  - apply list.NoDup_cons in Hclock as [Hnow Hclock]. apply IH; [done | | done |].
    + rewrite E. apply list.NoDup_app. split; [done |].
      split; [| apply NoDup_singleton].
      intros i Hi ->%list_elem_of_singleton.
      by apply (Hfresh now); [left |].
    + intros n Hn. rewrite E. intros [Hin | Hin]%elem_of_app.
      * by apply (Hfresh n); [right |].
      * apply list_elem_of_singleton, toString_inj in Hin as ->. done.
Qed.

End Frozen.

(** X21.  With a clock that never repeats, what a record was registered
    with stays: along any continuation of a run, the ids, passwords and
    creation timestamps of the records before are, in the same order, those
    of the first records after.  No login, save, logout, navigation or
    reload changes a stored password. *)
Theorem registered_fields_stay (events more : list App.Event) :
  NoDup (App.clock_readings (events ++ more)) ->
  map frozen (db (App.run App.init events))
    `prefix_of` map frozen (db (App.run App.init (events ++ more))).
Proof.
  rewrite clock_readings_app, run_app.
  intros (Hev & Hdisj & Hmore)%list.NoDup_app.
  apply run_frozen; [apply reachable_invariant | | done |].
  - apply run_ids_NoDup; [apply invariant_init | apply NoDup_nil_2 | done |].
    intros n _ Hin. by apply elem_of_nil in Hin.
  - intros n Hn Hin.
    apply run_ids_from_clock in Hin as [Hin | (m & Hm & E)];
      [by apply elem_of_nil in Hin | | apply invariant_init].
    apply toString_inj in E as ->. by apply (Hdisj m).
Qed.

Lemma registered_fields_stay_witness :
  map frozen (db (App.run App.init
                    [App.Navigate App.register;
                     App.SubmitRegister alice 5 stamp]))
    `prefix_of`
  map frozen (db (App.run App.init
                    ([App.Navigate App.register;
                      App.SubmitRegister alice 5 stamp]
                     ++ [App.Navigate App.login;
                         App.SubmitLogin (JS.str "alice@x.org")
                           (JS.str "secret1");
                         App.SaveProfile (edit "Alicia" "Archer" "al@x.org")]))).
Proof.
  apply registered_fields_stay.
  apply (bool_decide_unpack _). vm_compute. exact I.
Defined.
